(** * gpc.py: gender classification by pitch, batch evaluation

    A shallow embedding of [gpc.py].  Every definition below carries the name
    of the Python function (or the line range) it embeds.

    Conventions.
    - A numpy [float64] is a [spec_float] (IEEE 754 binary64 without NaN
      payload); the comparisons [<=] and [<] of the script are [SFleb] and
      [SFltb].
    - A Python [str] is a [string] of its UTF-8 bytes; [==] on strings is
      [String.eqb], and the order [list.sort] uses on them, by code point,
      is the bytewise order [String.le].
    - The ground-truth [dict] is a [gmap string string].
    - Code that may raise runs in the error monad [res]; [try/except] is
      [try_except].  The exceptions are those below [Exception], the ones
      [except Exception] catches.
    - The collaborators the script calls but does not define ([librosa.load],
      [librosa.pyin], [np.mean], [csv.DictReader], [os.listdir],
      the [.2f] and [.2%] formatters) are the fields of the class [Collab];
      the completion order of the thread pool is an argument of the run. *)

From Stdlib Require Import ZArith QArith Floats.SpecFloat.
From stdpp Require Import gmap strings list sorting pretty.

Local Open Scope string_scope.
Local Open Scope list_scope.

(** ** Floats *)

Module Float64.

Definition prec : Z := 53.
Definition emax : Z := 1024.

Definition float := spec_float.

(** [float(n)] for a Python [int]: the binary64 nearest to [n]. *)
Definition of_int (n : Z) : float := binary_normalize prec emax n 0 false.

Definition leb (x y : float) : bool := SFleb x y.
Definition ltb (x y : float) : bool := SFltb x y.

(** [np.isnan] *)
Definition isnan (x : float) : bool :=
  match x with S754_nan => true | _ => false end.

Definition valid (x : float) : bool := valid_binary prec emax x.

Definition is_finite (x : float) : bool :=
  match x with S754_zero _ | S754_finite _ _ _ => true | _ => false end.

(** The rational a finite float denotes, [(-1)^s * m * 2^e]; 0 for the
    others. *)
Definition to_Q (x : float) : Q :=
  match x with
  | S754_finite s m e =>
      let v := match e with
               | Zneg k => Zpos m # 2 ^ k
               | _ => inject_Z (Zpos m * 2 ^ e)
               end in
      if s then Qopp v else v
  | _ => 0%Q
  end.

End Float64.

Abbreviation float := Float64.float.

(** ** Exceptions *)

(** What the script can raise below [BaseException]: the [ZeroDivisionError]
    of [/], and whatever a collaborator raises, kept with its message. *)
Inductive exn :=
  | ZeroDivisionError
  | Exception (msg : string).

Inductive res (A : Type) :=
  | Ok (a : A)
  | Raise (e : exn).
Arguments Ok {A} a.
Arguments Raise {A} e.

Global Instance res_ret : MRet res := λ A a, Ok a.
Global Instance res_bind : MBind res := λ A B k c,
  match c with
  | Ok a => k a
  | Raise e => Raise e
  end.

(** [try: body except Exception as e: handler(e)], for a handler that
    returns. *)
Definition try_except {A} (body : res A) (handler : exn → A) : A :=
  match body with
  | Ok a => a
  | Raise e => handler e
  end.

Definition raises {A} (c : res A) : Prop := ∃ e, c = Raise e.

(** ** Strings and paths *)

(** [x in l] for a list of strings. *)
Definition str_in (x : string) (l : list string) : bool :=
  existsb (String.eqb x) l.

(** [s.endswith(suffix)] *)
Definition endswith (s suffix : string) : bool :=
  let n := String.length s in
  let k := String.length suffix in
  (k <=? n)%nat && String.eqb (String.substring (n - k) k s) suffix.

(** [os.path.join(a, b)] of [posixpath], for two components. *)
Definition os_path_join (a b : string) : string :=
  if String.prefix "/" b then b
  else if String.eqb a "" || endswith a "/" then a +:+ b
  else a +:+ "/" +:+ b.

Definition RESULTS_CSV : string := "results.csv".
Definition META_CSV : string := os_path_join "data" "meta.csv".
Definition AUDIO_DIR : string := os_path_join "data" "audio".

(** ** Records *)

(** The dict [process_file] returns, by key. *)
Module Row.
Record t := mk {
  file : string;
  predicted : string;
  mean_freq : string;
  ground_truth : string;
  correct : bool;
  unclassified : bool;
  incorrect : bool
}.
End Row.

(** The locals of [main] that the collection loop updates. *)
Module Tally.
Record t := mk {
  results : list Row.t;
  correct : nat;
  incorrect : nat;
  unclassified : nat;
  total : nat
}.
End Tally.

(** ** classify_gender (lines 29-53) *)

(** Lines 44-50: the pitch rule applied to the mean frequency. *)
Definition gender_rule (mean_freq : float) : string :=
  if Float64.leb (Float64.of_int 85) mean_freq
     && Float64.leb mean_freq (Float64.of_int 150) then "male"
  else if Float64.ltb (Float64.of_int 150) mean_freq
     && Float64.leb mean_freq (Float64.of_int 255) then "female"
  else "unclassified".

(** Line 40: [f0[~np.isnan(f0)]]. *)
Definition voiced (f0 : list float) : list float :=
  filter (λ x, Float64.isnan x = false) f0.

(** The parsed command line: [--all] and [--threads]. *)
Record Args := { all : bool; threads : Z }.

(** What a run leaves behind: the cells of [results.csv], line by line, and
    the statistics block printed at the end.  The progress bar, the
    [[ERROR]] line a worker prints and the elapsed-time line are console
    output outside this record. *)
Record Output := { results_csv : list (list string); console : list string }.

(** ** Collaborators *)

(** What the script calls and does not define, the thread pool apart. *)
Class Collab := {
  (** the decoded samples and the sample rate of [librosa.load] *)
  samples : Type;
  rate : Type;
  (** [librosa.load(path, sr=None)] *)
  librosa_load : string → res (samples * rate);
  (** [librosa.pyin(y, fmin=, fmax=, sr=)], its first component: one
      frequency per frame, NaN for an unvoiced frame *)
  librosa_pyin : samples → Z → Z → rate → res (list float);
  (** [np.mean] of a non-empty array *)
  np_mean : list float → float;
  (** [f"{x:.2f}"] *)
  format_2f : float → string;
  (** [csv.DictReader] over the opened file: the rows as dicts from column
      name to cell; a cell the reader left unset is [None] *)
  csv_DictReader : string → res (list (gmap string (option string)));
  (** [str.strip] and [str.lower] *)
  str_strip : string → string;
  str_lower : string → string;
  (** [os.listdir] *)
  os_listdir : string → res (list string);
  (** [f"{a/b:.2%}"] for two ints; the float [a/b] is the binary64 nearest
      to the rational, so the text is a function of it *)
  format_pct : Q → string
}.

Section Script.

Context `{!Collab}.

(** [as_completed(futures)]: the futures in the order the pool finishes
    them, which the script does not control; a future stands for the row
    its task returns. *)
Context (as_completed : list Row.t → list Row.t).

(** Lines 36-50, the body of the [try]. *)
Definition classify_gender_try (audio_path : string)
  : res (string * option float) :=
  '(audio_data, fs) ← librosa_load audio_path;
  f0 ← librosa_pyin audio_data 50%Z 300%Z fs;
  let f0 := voiced f0 in
  if (length f0 =? 0)%nat then mret ("unclassified", None)
  else
    let mean_freq := np_mean f0 in
    mret (gender_rule mean_freq, Some mean_freq).

Definition classify_gender (audio_path : string) : string * option float :=
  try_except (classify_gender_try audio_path) (λ e, ("error", None)).

(** ** process_file (lines 71-88) *)

Definition process_file (args : string * gmap string string) : Row.t :=
  let '(fname, ground_truth) := args in
  let audio_path := os_path_join AUDIO_DIR fname in
  let '(pred_label, mean_freq) := classify_gender audio_path in
  let true_label := default "unknown" (ground_truth !! fname) in
  let correct :=
    String.eqb pred_label true_label
    && str_in pred_label ["male"; "female"] in
  let unclassified := negb (str_in pred_label ["male"; "female"]) in
  let incorrect :=
    str_in pred_label ["male"; "female"]
    && negb (String.eqb pred_label true_label) in
  {| Row.file := fname;
     Row.predicted := pred_label;
     Row.mean_freq :=
       match mean_freq with Some f => format_2f f | None => "" end;
     Row.ground_truth := true_label;
     Row.correct := correct;
     Row.unclassified := unclassified;
     Row.incorrect := incorrect |}.

(** ** load_ground_truth (lines 56-69) *)

(** [x.strip()], where [x] may be [None]. *)
Definition strip_cell (x : option string) : res string :=
  match x with
  | Some s => mret (str_strip s)
  | None => Raise (Exception "AttributeError")
  end.

Definition load_ground_truth_row
    (truth : gmap string string) (row : gmap string (option string))
  : res (gmap string string) :=
  cell ← match row !! "filename" with
         | Some c => mret c
         | None => Raise (Exception "KeyError")
         end;
  fname ← strip_cell cell;
  gender ← strip_cell (default (Some "") (row !! "gender"));
  mret (<[fname := str_lower gender]> truth).

Fixpoint load_ground_truth_rows
    (truth : gmap string string) (rows : list (gmap string (option string)))
  : res (gmap string string) :=
  match rows with
  | [] => mret truth
  | row :: rows =>
      truth ← load_ground_truth_row truth row;
      load_ground_truth_rows truth rows
  end.

Definition load_ground_truth (meta_csv : string) : res (gmap string string) :=
  reader ← csv_DictReader meta_csv;
  load_ground_truth_rows ∅ reader.

(** ** main (lines 91-153) *)

(** Lines 99-102. *)
Definition select_files (all : bool) (listing : list string) : list string :=
  let audio_files := filter (λ f, endswith f ".mp3" = true) listing in
  let audio_files := merge_sort String.le audio_files in
  if negb all then take 10 audio_files else audio_files.

Definition tally_init : Tally.t :=
  {| Tally.results := []; Tally.correct := 0; Tally.incorrect := 0;
     Tally.unclassified := 0; Tally.total := 0 |}.

(** Lines 115-122 and 126-133: the body both loops share. *)
Definition collect (st : Tally.t) (row : Row.t) : Tally.t :=
  let results := Tally.results st ++ [row] in
  let correct := Tally.correct st in
  let unclassified := Tally.unclassified st in
  let incorrect := Tally.incorrect st in
  let '(correct, unclassified, incorrect) :=
    if Row.correct row then (correct + 1, unclassified, incorrect)
    else if Row.unclassified row then (correct, unclassified + 1, incorrect)
    else if Row.incorrect row then (correct, unclassified, incorrect + 1)
    else (correct, unclassified, incorrect) in
  {| Tally.results := results; Tally.correct := correct;
     Tally.incorrect := incorrect; Tally.unclassified := unclassified;
     Tally.total := Tally.total st + 1 |}.

(** Lines 103-133. *)
Definition classify_all (threads : Z) (ground_truth : gmap string string)
    (audio_files : list string) : Tally.t :=
  if (1 <? threads)%Z then
    let tasks := (λ fname, (fname, ground_truth)) <$> audio_files in
    let futures := process_file <$> tasks in
    foldl collect tally_init (as_completed futures)
  else
    foldl (λ st fname, collect st (process_file (fname, ground_truth)))
          tally_init audio_files.

(** Lines 135-140. *)
Definition fieldnames : list string :=
  ["file"; "predicted"; "mean_freq"; "ground_truth"; "correct"].

(** [str(b)] for a [bool]. *)
Definition str_bool (b : bool) : string := if b then "True" else "False".

Definition csv_row (row : Row.t) : list string :=
  [Row.file row; Row.predicted row; Row.mean_freq row;
   Row.ground_truth row; str_bool (Row.correct row)].

Definition write_csv (results : list Row.t) : list (list string) :=
  fieldnames :: (csv_row <$> results).

(** [a / b] on ints. *)
Definition truediv (a b : nat) : res Q :=
  if (b =? 0)%nat then Raise ZeroDivisionError
  else mret (Z.of_nat a # Pos.of_nat b).

(** Lines 142-151. *)
Definition print_statistics (st : Tally.t) : res (list string) :=
  let total := Tally.total st in
  let out :=
    [String (Ascii.ascii_of_nat 10) "--- Classification Statistics ---";
     "Total files: " +:+ pretty total;
     "Correct (male/female): " +:+ pretty (Tally.correct st);
     "Incorrect (male/female): " +:+ pretty (Tally.incorrect st);
     "Unclassified: " +:+ pretty (Tally.unclassified st)] in
  out ← (if (0 <? total)%nat then
           success ← truediv (Tally.correct st) total;
           failure ← truediv (Tally.incorrect st) total;
           unclassified ← truediv (Tally.unclassified st) total;
           mret (out ++ ["Success rate: " +:+ format_pct success;
                         "Failure rate: " +:+ format_pct failure;
                         "Unclassified rate: " +:+ format_pct unclassified])
         else mret out);
  mret (out ++ ["Results written to " +:+ RESULTS_CSV]).

Definition main (args : Args) : res Output :=
  ground_truth ← load_ground_truth META_CSV;
  listing ← os_listdir AUDIO_DIR;
  let audio_files := select_files (all args) listing in
  let st := classify_all (threads args) ground_truth audio_files in
  let csvfile := write_csv (Tally.results st) in
  out ← print_statistics st;
  mret {| results_csv := csvfile; console := out |}.

End Script.

(** ** The summary of the specification *)

(** The specification derives the aggregate counts from the finished record
    sequence: each count is the number of records whose flag is true.  The
    two definitions below follow those words, not the script; the theorems
    compare them with what [collect] maintains. *)
Record RunSummary := {
  summary_total : nat;
  summary_correct : nat;
  summary_incorrect : nat;
  summary_unclassified : nat
}.

Definition count_flag (flag : Row.t → bool) (records : list Row.t) : nat :=
  length (filter (λ r, flag r = true) records).

Definition summary_step (s : RunSummary) (r : Row.t) : RunSummary :=
  {| summary_total := summary_total s + 1;
     summary_correct := summary_correct s + (if Row.correct r then 1 else 0);
     summary_incorrect :=
       summary_incorrect s + (if Row.incorrect r then 1 else 0);
     summary_unclassified :=
       summary_unclassified s + (if Row.unclassified r then 1 else 0) |}.

Definition summary_fold (records : list Row.t) : RunSummary :=
  foldl summary_step
    {| summary_total := 0; summary_correct := 0; summary_incorrect := 0;
       summary_unclassified := 0 |}
    records.

(** The counters of a tally, as a summary. *)
Definition summary_of (st : Tally.t) : RunSummary :=
  {| summary_total := Tally.total st;
     summary_correct := Tally.correct st;
     summary_incorrect := Tally.incorrect st;
     summary_unclassified := Tally.unclassified st |}.

(** Exactly one of three flags. *)
Definition exactly_one (a b c : bool) : Prop :=
  (a = true ∧ b = false ∧ c = false)
  ∨ (a = false ∧ b = true ∧ c = false)
  ∨ (a = false ∧ b = false ∧ c = true).

(** A row is well formed when exactly one of its flags is set. *)
Definition well_formed (r : Row.t) : Prop :=
  exactly_one (Row.correct r) (Row.incorrect r) (Row.unclassified r).

(** ** A concrete world *)

(** Twelve clips and a notes file in [data/audio], four rows in
    [data/meta.csv].  [clip1] is voiced at 120 Hz, [clip2] has no voiced
    frame, [clip3] is voiced at 200 Hz, [clip4] does not decode, the pitch
    tracker fails on [clip5], and the other clips are voiced at 300 Hz. *)
Module Demo.

Definition f64 (n : Z) : float := Float64.of_int n.

(** The sum from left to right divided by the length, all in binary64. *)
Definition mean (l : list float) : float :=
  SFdiv Float64.prec Float64.emax
    (foldl (SFadd Float64.prec Float64.emax) (S754_zero false) l)
    (f64 (Z.of_nat (length l))).

Definition two_digits (n : Z) : string :=
  (if (n <? 10)%Z then "0" else "") +:+ pretty n.

(** [n] hundredths as a decimal with two places. *)
Definition hundredths (n : Z) : string :=
  pretty (n / 100)%Z +:+ "." +:+ two_digits (n mod 100)%Z.

(** The nearest integer to [a / b], ties to even, for [0 <= a], [0 < b]. *)
Definition round_half_even (a b : Z) : Z :=
  let q := (a / b)%Z in
  let r := (2 * (a mod b))%Z in
  if (r <? b)%Z then q
  else if (b <? r)%Z then (q + 1)%Z
  else if Z.even q then q else (q + 1)%Z.

Definition fmt_2f (x : float) : string :=
  match x with
  | S754_nan => "nan"
  | S754_infinity s => if s then "-inf" else "inf"
  | S754_zero s => if s then "-0.00" else "0.00"
  | S754_finite s m e =>
      let n := match e with
               | Zneg k => round_half_even (Zpos m * 100) (2 ^ Zpos k)
               | _ => (Zpos m * 100 * 2 ^ e)%Z
               end in
      (if s then "-" else "") +:+ hundredths n
  end.

Definition fmt_pct (q : Q) : string :=
  hundredths (round_half_even (Qnum q * 10000) (Zpos (Qden q))) +:+ "%".

Fixpoint lstrip (s : string) : string :=
  match s with
  | String c s' => if Ascii.is_space c then lstrip s' else s
  | EmptyString => s
  end.

Definition strip (s : string) : string :=
  String.rev (lstrip (String.rev (lstrip s))).

Definition lower_ascii (c : Ascii.ascii) : Ascii.ascii :=
  let n := Ascii.nat_of_ascii c in
  if (65 <=? n)%nat && (n <=? 90)%nat then Ascii.ascii_of_nat (n + 32)
  else c.

Fixpoint lower (s : string) : string :=
  match s with
  | String c s' => String (lower_ascii c) (lower s')
  | EmptyString => s
  end.

Definition meta_rows : list (gmap string (option string)) :=
  [ {[ "filename" := Some "clip1.mp3"; "gender" := Some "male" ]};
    {[ "filename" := Some " clip2.mp3"; "gender" := Some "Female " ]};
    {[ "filename" := Some "clip3.mp3"; "gender" := Some "male" ]};
    {[ "filename" := Some "clip4.mp3"; "gender" := Some "male" ]} ].

Definition listing : list string :=
  [ "clip3.mp3"; "notes.txt"; "clip12.mp3"; "clip1.mp3"; "clip7.mp3";
    "clip4.mp3"; "clip10.mp3"; "clip2.mp3"; "clip9.mp3"; "clip5.mp3";
    "clip11.mp3"; "clip6.mp3"; "clip8.mp3" ].

Definition load (path : string) : res (string * unit) :=
  if String.eqb path "data/audio/clip4.mp3"
  then Raise (Exception "decode") else mret (path, ()).

Definition pyin (audio : string) (fmin fmax : Z) (fs : unit)
  : res (list float) :=
  if String.eqb audio "data/audio/clip1.mp3"
  then mret [f64 119; S754_nan; f64 121; f64 120]
  else if String.eqb audio "data/audio/clip2.mp3"
  then mret [S754_nan; S754_nan]
  else if String.eqb audio "data/audio/clip3.mp3" then mret [f64 200]
  else if String.eqb audio "data/audio/clip5.mp3"
  then Raise (Exception "pyin")
  else mret [f64 300; S754_nan].

#[export] Instance world : Collab := {|
  samples := string;
  rate := unit;
  librosa_load := load;
  librosa_pyin := pyin;
  np_mean := mean;
  format_2f := fmt_2f;
  csv_DictReader := λ path,
    if String.eqb path "data/meta.csv" then mret meta_rows
    else Raise (Exception "FileNotFoundError");
  str_strip := strip;
  str_lower := lower;
  os_listdir := λ path,
    if String.eqb path "data/audio" then mret listing
    else Raise (Exception "FileNotFoundError");
  format_pct := fmt_pct
|}.

(** A pool that finishes its tasks last to first. *)
Definition last_first (futures : list Row.t) : list Row.t := reverse futures.

Definition run (all : bool) (threads : Z) : res Output :=
  main last_first {| all := all; threads := threads |}.

(** The table [load_ground_truth] builds from [meta_rows]. *)
Definition truth : gmap string string :=
  {[ "clip1.mp3" := "male"; "clip2.mp3" := "female";
     "clip3.mp3" := "male"; "clip4.mp3" := "male" ]}.

(** The first ten clips in sorted order. *)
Definition first_ten : list string :=
  [ "clip1.mp3"; "clip10.mp3"; "clip11.mp3"; "clip12.mp3"; "clip2.mp3";
    "clip3.mp3"; "clip4.mp3"; "clip5.mp3"; "clip6.mp3"; "clip7.mp3" ].

(** The binary64 numbers nearest to 150.0001, 255.0001 and 84.9999. *)
Definition f_150_0001 : float := S754_finite false 5277659331762009 (-45).
Definition f_255_0001 : float := S754_finite false 8972018401089369 (-45).
Definition f_84_9999 : float := S754_finite false 5981336218227022 (-46).

End Demo.


(** ** Vocabulary of the statements *)

(** The rows in the order the collection loop of [classify_all] meets them:
    submission order in the sequential branch, completion order in the
    threaded one. *)
Definition arrival `{!Collab} (as_completed : list Row.t → list Row.t)
    (threads : Z) (ground_truth : gmap string string)
    (audio_files : list string) : list Row.t :=
  if (1 <? threads)%Z
  then as_completed ((λ fname, process_file (fname, ground_truth))
                       <$> audio_files)
  else (λ fname, process_file (fname, ground_truth)) <$> audio_files.

(** A completion order is fair when it yields every future once. *)
Definition fair (as_completed : list Row.t → list Row.t) : Prop :=
  ∀ futures, as_completed futures ≡ₚ futures.

(** The sorted candidate list of line 100. *)
Definition candidates (listing : list string) : list string :=
  merge_sort String.le (filter (λ f, endswith f ".mp3" = true) listing).

(** *** Metadata rows *)

(** A row [load_ground_truth] can take: its [filename] cell is set, and its
    [gender] cell, when the column exists, is set too. *)
Definition loadable (row : gmap string (option string)) : Prop :=
  (∃ f, row !! "filename" = Some (Some f)) ∧ row !! "gender" ≠ Some None.

(** The key a row is stored under, and the label stored with it. *)
Definition row_key `{!Collab} (row : gmap string (option string))
  : option string :=
  match row !! "filename" with
  | Some (Some f) => Some (str_strip f)
  | _ => None
  end.

Definition row_label `{!Collab} (row : gmap string (option string))
  : option string :=
  match row !! "gender" with
  | Some (Some g) => Some (str_lower (str_strip g))
  | Some None => None
  | None => Some (str_lower (str_strip ""))
  end.

(** ** A world with a damaged metadata table *)

(** As [Demo.world], except that the second row of the table has no
    [filename] cell and the third an unset [gender] cell. *)
Module Damaged.

Definition meta_rows : list (gmap string (option string)) :=
  [ {[ "filename" := Some "clip1.mp3"; "gender" := Some "male" ]};
    {[ "gender" := Some "female" ]};
    {[ "filename" := Some "clip3.mp3"; "gender" := None ]} ].

#[export] Instance world : Collab := {|
  samples := string;
  rate := unit;
  librosa_load := Demo.load;
  librosa_pyin := Demo.pyin;
  np_mean := Demo.mean;
  format_2f := Demo.fmt_2f;
  csv_DictReader := λ path, mret meta_rows;
  str_strip := Demo.strip;
  str_lower := Demo.lower;
  os_listdir := λ path, mret Demo.listing;
  format_pct := Demo.fmt_pct
|}.

End Damaged.

(** * Properties *)

(** ** The pitch rule *)

Lemma SFcompare_antisym (x y : float) :
  SFcompare y x = option_map CompOpp (SFcompare x y).
Proof.
  destruct x as [[]|[]| |[] m1 e1], y as [[]|[]| |[] m2 e2];
    simpl; try reflexivity.
  all: change (Pos.compare_cont Eq) with Pos.compare.
  all: rewrite (Z.compare_antisym e1 e2), (Pos.compare_antisym m1 m2).
  all: destruct (e1 ?= e2)%Z; simpl; try reflexivity.
  all: destruct (m1 ?= m2)%positive; reflexivity.
Qed.

Lemma leb_not_ltb (x y : float) :
  Float64.leb x y = true → Float64.ltb y x = false.
Proof.
  unfold Float64.leb, Float64.ltb, SFleb, SFltb.
  rewrite (SFcompare_antisym x y).
  by destruct (SFcompare x y) as [[]|].
Qed.

Lemma ltb_not_leb (x y : float) :
  Float64.ltb x y = true → Float64.leb y x = false.
Proof.
  unfold Float64.leb, Float64.ltb, SFleb, SFltb.
  rewrite (SFcompare_antisym x y).
  by destruct (SFcompare x y) as [[]|].
Qed.


Lemma ltb_leb_trans (x y z : float) :
  Float64.ltb x y = true → Float64.leb y z = true → Float64.ltb x z = true.
Proof.
  unfold Float64.ltb, Float64.leb, SFltb, SFleb.
  destruct x as [[]|[]| |[] m1 e1], y as [[]|[]| |[] m2 e2],
    z as [[]|[]| |[] m3 e3]; simpl; try done.
  all: change (Pos.compare_cont Eq) with Pos.compare.
  all: destruct (Z.compare_spec e1 e2), (Z.compare_spec e2 e3),
         (Z.compare_spec e1 e3); simpl; try done; try lia.
  all: destruct (Pos.compare_spec m1 m2), (Pos.compare_spec m2 m3),
         (Pos.compare_spec m1 m3); simpl; try done; try lia.
Qed.

Lemma ltb_leb (x y : float) :
  Float64.ltb x y = true → Float64.leb x y = true.
Proof.
  unfold Float64.ltb, Float64.leb, SFltb, SFleb.
  by destruct (SFcompare x y) as [[]|].
Qed.

(** *** The order of the rationals *)


Lemma digits2_pos_bounds (m : positive) :
  (2 ^ (Zpos (digits2_pos m) - 1) ≤ Zpos m < 2 ^ Zpos (digits2_pos m))%Z.
Proof.
  induction m as [p IH|p IH|]; simpl digits2_pos.
  - rewrite Pos2Z.inj_succ.
    replace (Z.succ (Zpos (digits2_pos p)) - 1)%Z
      with (Z.succ (Zpos (digits2_pos p) - 1))%Z by lia.
    rewrite !Z.pow_succ_r by lia. lia.
  - rewrite Pos2Z.inj_succ.
    replace (Z.succ (Zpos (digits2_pos p)) - 1)%Z
      with (Z.succ (Zpos (digits2_pos p) - 1))%Z by lia.
    rewrite !Z.pow_succ_r by lia. lia.
  - simpl. lia.
Qed.

(** What [valid] says of a finite float. *)
Lemma valid_finite (s : bool) (m : positive) (e : Z) :
  Float64.valid (S754_finite s m e) = true →
  (-1074 ≤ e)%Z ∧ (Zpos m < 2 ^ 53)%Z ∧ (e = -1074 ∨ 2 ^ 52 ≤ Zpos m)%Z.
Proof.
  unfold Float64.valid, valid_binary, bounded, canonical_mantissa, fexp, SpecFloat.emin,
    Float64.prec, Float64.emax.
  intros [Hc _]%andb_prop. apply Z.eqb_eq in Hc.
  pose proof (digits2_pos_bounds m) as [Hlo Hhi].
  set (d := Zpos (digits2_pos m)) in *.
  assert (d ≤ 53 ∧ -1074 ≤ e ∧ (e = -1074 ∨ d = 53))%Z as (Hd & He & Hn) by lia.
  split; [done|]. split.
  - eapply Z.lt_le_trans; [exact Hhi|]. by apply Z.pow_le_mono_r.
  - destruct Hn as [->| ->]; [by left|right]. exact Hlo.
Qed.

Lemma Z_compare_mul_r (a b p : Z) :
  (0 < p)%Z → (a * p ?= b * p)%Z = (a ?= b)%Z.
Proof.
  intros Hp. destruct (Z.compare_spec a b) as [->|Hlt|Hgt].
  - apply Z.compare_refl.
  - apply Z.compare_lt_iff. nia.
  - apply Z.compare_gt_iff. nia.
Qed.

Lemma pow_lt_canonical (m1 m2 a1 a2 : Z) :
  (0 ≤ a1 < a2)%Z → (0 < m1 < 2 ^ 53)%Z → (2 ^ 52 ≤ m2)%Z →
  (m1 * 2 ^ a1 < m2 * 2 ^ a2)%Z.
Proof.
  intros Ha Hm1 Hm2.
  replace a2 with (a1 + (a2 - a1))%Z by lia.
  rewrite Z.pow_add_r by lia.
  assert (2 ^ 1 ≤ 2 ^ (a2 - a1))%Z as H2 by (apply Z.pow_le_mono_r; lia).
  assert (0 < 2 ^ a1)%Z as Hp by (apply Z.pow_pos_nonneg; lia).
  change (2 ^ 53)%Z with (2 ^ 52 * 2)%Z in Hm1.
  change (2 ^ 1)%Z with 2%Z in H2.
  generalize dependent (2 ^ (a2 - a1))%Z. intros K HK.
  generalize dependent (2 ^ a1)%Z. intros P HP.
  generalize dependent (2 ^ 52)%Z. intros C Hm1 Hm2.
  assert (m1 * P < C * 2 * P)%Z by nia.
  assert (C * 2 * P ≤ m2 * 2 * P)%Z by nia.
  assert (m2 * 2 * P ≤ m2 * K * P)%Z by nia.
  lia.
Qed.

(** On Float64.valid finite floats of one sign, the order of [SFcompare] on the
    pairs (exponent, mantissa) is the order of the magnitudes. *)
Lemma magnitude_compare (s1 s2 : bool) (m1 m2 : positive) (e1 e2 : Z) :
  Float64.valid (S754_finite s1 m1 e1) = true →
  Float64.valid (S754_finite s2 m2 e2) = true →
  match (e1 ?= e2)%Z with
  | Lt => Lt
  | Gt => Gt
  | Eq => Pos.compare_cont Eq m1 m2
  end
  = (Zpos m1 * 2 ^ (e1 + 1074) ?= Zpos m2 * 2 ^ (e2 + 1074))%Z.
Proof.
  intros (He1 & Hm1 & Hn1)%valid_finite (He2 & Hm2 & Hn2)%valid_finite.
  symmetry. destruct (Z.compare_spec e1 e2) as [->|Hlt|Hgt].
  - change (Pos.compare_cont Eq m1 m2) with (Zpos m1 ?= Zpos m2)%Z.
    apply Z_compare_mul_r, Z.pow_pos_nonneg; lia.
  - apply Z.compare_lt_iff, pow_lt_canonical; lia.
  - apply Z.compare_gt_iff, pow_lt_canonical; lia.
Qed.

Lemma to_Q_scaled (s : bool) (m : positive) (e : Z) :
  (-1074 ≤ e)%Z →
  (Float64.to_Q (S754_finite s m e)
   == (if s then - (Zpos m * 2 ^ (e + 1074)) else Zpos m * 2 ^ (e + 1074))%Z
      # 2 ^ 1074)%Q.
Proof.
  intros He.
  assert (Zpos (2 ^ 1074) = 2 ^ 1074)%Z as Hd by apply Pos2Z.inj_pow.
  assert (∀ v w : Q, (v == w)%Q →
            ((if s then Qopp v else v) == (if s then Qopp w else w))%Q) as Hs.
  { intros v w Hvw. destruct s; [by rewrite Hvw | done]. }
  unfold Float64.to_Q.
  etransitivity; [apply Hs|].
  2: { instantiate (1 := ((Zpos m * 2 ^ (e + 1074))%Z # 2 ^ 1074)%Q).
       by destruct s. }
  destruct e as [|k|k]; unfold Qeq; cbn [inject_Z Qnum Qden]; rewrite Hd.
  - change (0 + 1074)%Z with 1074%Z. lia.
  - rewrite (Z.pow_add_r 2 (Zpos k) 1074) by lia. lia.
  - rewrite Pos2Z.inj_pow.
    replace (2 ^ 1074)%Z with (2 ^ (Zneg k + 1074) * 2 ^ Zpos k)%Z.
    + lia.
    + rewrite <- Z.pow_add_r by lia. f_equal. lia.
Qed.

Lemma Qcompare_same_den (a b : Z) (d : positive) :
  (a # d ?= b # d)%Q = (a ?= b)%Z.
Proof.
  unfold Qcompare. cbn [Qnum Qden].
  apply Z_compare_mul_r. lia.
Qed.

Lemma Qcompare_zero_l (b : Z) (d : positive) :
  (0 ?= b # d)%Q = (0 ?= b)%Z.
Proof. unfold Qcompare. cbn [Qnum Qden]. by rewrite Z.mul_1_r. Qed.

Lemma Qcompare_zero_r (a : Z) (d : positive) :
  (a # d ?= 0)%Q = (a ?= 0)%Z.
Proof. unfold Qcompare. cbn [Qnum Qden]. by rewrite Z.mul_1_r. Qed.

Lemma magnitude_pos (m : positive) (e : Z) :
  (-1074 ≤ e)%Z → (0 < Zpos m * 2 ^ (e + 1074))%Z.
Proof.
  intros He. apply Z.mul_pos_pos; [lia|]. apply Z.pow_pos_nonneg; lia.
Qed.

(** [SFcompare] on Float64.valid finite floats is the order of the rationals. *)
Lemma compare_to_Q (x y : float) :
  Float64.valid x = true → Float64.valid y = true →
  Float64.is_finite x = true → Float64.is_finite y = true →
  SFcompare x y = Some (Float64.to_Q x ?= Float64.to_Q y)%Q.
Proof.
  intros Vx Vy Fx Fy.
  destruct x as [sx| | |sx mx ex], y as [sy| | |sy my ey]; try done.
  - destruct (valid_finite _ _ _ Vy) as (He & _).
    rewrite (to_Q_scaled sy my ey He).
    pose proof (magnitude_pos my ey He).
    change (Float64.to_Q (S754_zero sx)) with 0%Q.
    rewrite Qcompare_zero_l.
    destruct sy; cbn [SFcompare]; f_equal; symmetry.
    + apply Z.compare_gt_iff. lia.
    + apply Z.compare_lt_iff. lia.
  - destruct (valid_finite _ _ _ Vx) as (He & _).
    rewrite (to_Q_scaled sx mx ex He).
    pose proof (magnitude_pos mx ex He).
    change (Float64.to_Q (S754_zero sy)) with 0%Q.
    rewrite Qcompare_zero_r.
    destruct sx; cbn [SFcompare]; f_equal; symmetry.
    + apply Z.compare_lt_iff. lia.
    + apply Z.compare_gt_iff. lia.
  - destruct (valid_finite _ _ _ Vx) as (Hex & _).
    destruct (valid_finite _ _ _ Vy) as (Hey & _).
    rewrite (to_Q_scaled sx mx ex Hex), (to_Q_scaled sy my ey Hey).
    rewrite Qcompare_same_den.
    pose proof (magnitude_pos mx ex Hex).
    pose proof (magnitude_pos my ey Hey).
    pose proof (magnitude_compare sx sy mx my ex ey Vx Vy) as Hc.
    destruct sx, sy; cbn [SFcompare]; f_equal.
    + rewrite Z.compare_opp.
      rewrite (Z.compare_antisym (Zpos mx * 2 ^ (ex + 1074))), <- Hc.
      by destruct (ex ?= ey)%Z.
    + symmetry. apply Z.compare_lt_iff. lia.
    + symmetry. apply Z.compare_gt_iff. lia.
    + exact Hc.
Qed.

Lemma leb_to_Q (x y : float) :
  Float64.valid x = true → Float64.valid y = true →
  Float64.is_finite x = true → Float64.is_finite y = true →
  Float64.leb x y = true ↔ (Float64.to_Q x <= Float64.to_Q y)%Q.
Proof.
  intros Vx Vy Fx Fy. unfold Float64.leb, SFleb.
  rewrite (compare_to_Q x y Vx Vy Fx Fy), Qle_alt.
  destruct (Float64.to_Q x ?= Float64.to_Q y)%Q; intuition congruence.
Qed.

Lemma ltb_to_Q (x y : float) :
  Float64.valid x = true → Float64.valid y = true →
  Float64.is_finite x = true → Float64.is_finite y = true →
  Float64.ltb x y = true ↔ (Float64.to_Q x < Float64.to_Q y)%Q.
Proof.
  intros Vx Vy Fx Fy. unfold Float64.ltb, SFltb.
  rewrite (compare_to_Q x y Vx Vy Fx Fy), Qlt_alt.
  destruct (Float64.to_Q x ?= Float64.to_Q y)%Q; intuition congruence.
Qed.

(** The three thresholds are binary64 numbers. *)
Lemma threshold_exact (n : Z) :
  (n = 85 ∨ n = 150 ∨ n = 255)%Z →
  Float64.valid (Float64.of_int n) = true
  ∧ Float64.is_finite (Float64.of_int n) = true
  ∧ (Float64.to_Q (Float64.of_int n) == inject_Z n)%Q.
Proof.
  intros [->|[->| ->]]; by vm_compute.
Qed.

Lemma gender_rule_nonfinite (f : float) :
  Float64.is_finite f = false → gender_rule f = "unclassified".
Proof. by destruct f as [|[]| |]. Qed.

(** ** Rows *)

Lemma exactly_one_flags (eq gender : bool) :
  exactly_one (eq && gender) (gender && negb eq) (negb gender).
Proof. unfold exactly_one. destruct eq, gender; simpl; tauto. Qed.

Section Rows.

Context `{!Collab}.

(** The fields of a row in terms of what [classify_gender] returned and of
    the table. *)
Lemma process_file_fields (fname : string) (gt : gmap string string) :
  let r := process_file (fname, gt) in
  let res := classify_gender (os_path_join AUDIO_DIR fname) in
  Row.file r = fname
  ∧ Row.predicted r = res.1
  ∧ Row.mean_freq r = from_option format_2f "" res.2
  ∧ Row.ground_truth r = default "unknown" (gt !! fname)
  ∧ Row.correct r
    = String.eqb (Row.predicted r) (Row.ground_truth r)
      && str_in (Row.predicted r) ["male"; "female"]
  ∧ Row.incorrect r
    = str_in (Row.predicted r) ["male"; "female"]
      && negb (String.eqb (Row.predicted r) (Row.ground_truth r))
  ∧ Row.unclassified r = negb (str_in (Row.predicted r) ["male"; "female"]).
Proof.
  unfold process_file.
  destruct (classify_gender _) as [pred_label [mean_freq|]]; simpl; done.
Qed.

Lemma process_file_exactly_one (args : string * gmap string string) :
  exactly_one (Row.correct (process_file args))
              (Row.incorrect (process_file args))
              (Row.unclassified (process_file args)).
Proof.
  destruct args as [fname gt].
  destruct (process_file_fields fname gt) as (_ & _ & _ & _ & -> & -> & ->).
  apply exactly_one_flags.
Qed.

End Rows.

(** ** The collection loop *)

Lemma count_flag_cons (flag : Row.t → bool) (r : Row.t) (rows : list Row.t) :
  count_flag flag (r :: rows)
  = (if flag r then 1 else 0) + count_flag flag rows.
Proof.
  unfold count_flag. rewrite filter_cons.
  destruct (flag r); case_decide; simpl; congruence.
Qed.

Lemma count_flag_perm (flag : Row.t → bool) (rows rows' : list Row.t) :
  rows ≡ₚ rows' → count_flag flag rows = count_flag flag rows'.
Proof. intros Hp. unfold count_flag. by rewrite Hp. Qed.

(** What the loop leaves in the tally, from any starting tally. *)
Lemma foldl_collect (rows : list Row.t) :
  Forall well_formed rows →
  ∀ st,
    let st' := foldl collect st rows in
    Tally.results st' = Tally.results st ++ rows
    ∧ Tally.total st' = Tally.total st + length rows
    ∧ Tally.correct st' = Tally.correct st + count_flag Row.correct rows
    ∧ Tally.incorrect st'
      = Tally.incorrect st + count_flag Row.incorrect rows
    ∧ Tally.unclassified st'
      = Tally.unclassified st + count_flag Row.unclassified rows.
Proof.
  induction 1 as [|r rows Hr _ IH]; intros st; simpl.
  - rewrite app_nil_r. unfold count_flag. simpl. repeat split; lia.
  - specialize (IH (collect st r)). simpl in IH.
    destruct IH as (-> & -> & -> & -> & ->).
    rewrite !count_flag_cons.
    unfold collect.
    destruct Hr as [(-> & -> & ->)|[(-> & -> & ->)|(-> & -> & ->)]]; simpl;
      rewrite <- app_assoc; simpl; repeat split; try reflexivity; lia.
Qed.

Lemma summary_fold_counts (rows : list Row.t) :
  summary_fold rows
  = {| summary_total := length rows;
       summary_correct := count_flag Row.correct rows;
       summary_incorrect := count_flag Row.incorrect rows;
       summary_unclassified := count_flag Row.unclassified rows |}.
Proof.
  unfold summary_fold.
  set (z := {| summary_total := 0 |}).
  assert (∀ s,
    foldl summary_step s rows
    = {| summary_total := summary_total s + length rows;
         summary_correct := summary_correct s + count_flag Row.correct rows;
         summary_incorrect :=
           summary_incorrect s + count_flag Row.incorrect rows;
         summary_unclassified :=
           summary_unclassified s + count_flag Row.unclassified rows |}) as H.
  { induction rows as [|r rows IH]; intros s; simpl.
    - destruct s; simpl. unfold count_flag. simpl. f_equal; lia.
    - rewrite IH, !count_flag_cons. unfold summary_step. simpl.
      f_equal; lia. }
  apply H.
Qed.

(** ** One run *)

Section Batch.

Context `{!Collab}.

Implicit Types (as_completed : list Row.t → list Row.t).
Implicit Types (gt : gmap string string) (files : list string).

Lemma classify_all_arrival as_completed threads gt files :
  classify_all as_completed threads gt files
  = foldl collect tally_init (arrival as_completed threads gt files).
Proof.
  unfold classify_all, arrival.
  destruct (1 <? threads)%Z.
  - by rewrite <- list_fmap_compose.
  - by rewrite foldl_fmap.
Qed.

Lemma arrival_sequential as_completed threads gt files :
  (threads ≤ 1)%Z →
  arrival as_completed threads gt files
  = (λ fname, process_file (fname, gt)) <$> files.
Proof.
  intros Ht. unfold arrival.
  by destruct (Z.ltb_spec 1 threads); [lia|].
Qed.

Lemma arrival_perm as_completed threads gt files :
  fair as_completed →
  arrival as_completed threads gt files
  ≡ₚ (λ fname, process_file (fname, gt)) <$> files.
Proof.
  intros Hfair. unfold arrival.
  destruct (1 <? threads)%Z; [apply Hfair | done].
Qed.

Lemma fmap_process_file_well_formed gt files :
  Forall well_formed ((λ fname, process_file (fname, gt)) <$> files).
Proof.
  apply Forall_fmap, Forall_forall. intros fname _.
  apply (process_file_exactly_one (fname, gt)).
Qed.

Lemma arrival_well_formed as_completed threads gt files :
  fair as_completed →
  Forall well_formed (arrival as_completed threads gt files).
Proof.
  intros Hfair. rewrite (arrival_perm _ _ _ _ Hfair).
  apply fmap_process_file_well_formed.
Qed.

Lemma arrival_files as_completed threads gt files :
  fair as_completed →
  Row.file <$> arrival as_completed threads gt files ≡ₚ files.
Proof.
  intros Hfair. rewrite (arrival_perm _ _ _ _ Hfair).
  rewrite <- list_fmap_compose.
  rewrite <- (list_fmap_id files) at 2.
  erewrite list_fmap_ext; [reflexivity|].
  intros _ fname _. simpl.
  apply (process_file_fields fname gt).
Qed.

(** The tally a run ends with. *)
Lemma classify_all_tally as_completed threads gt files :
  fair as_completed →
  let st := classify_all as_completed threads gt files in
  let rows := arrival as_completed threads gt files in
  Tally.results st = rows
  ∧ Tally.total st = length rows
  ∧ Tally.correct st = count_flag Row.correct rows
  ∧ Tally.incorrect st = count_flag Row.incorrect rows
  ∧ Tally.unclassified st = count_flag Row.unclassified rows.
Proof.
  intros Hfair. simpl. rewrite classify_all_arrival.
  apply (foldl_collect _ (arrival_well_formed _ threads gt files Hfair)
           tally_init).
Qed.

(** Every well-formed row is counted once. *)
Lemma count_flag_partition (rows : list Row.t) :
  Forall well_formed rows →
  length rows
  = count_flag Row.correct rows + count_flag Row.incorrect rows
    + count_flag Row.unclassified rows.
Proof.
  induction 1 as [|r rows Hr _ IH]; [done|].
  rewrite !count_flag_cons. simpl. rewrite IH.
  destruct Hr as [(-> & -> & ->)|[(-> & -> & ->)|(-> & -> & ->)]]; lia.
Qed.

End Batch.

(** ** The statistics block and [main] *)

Section Main.

Context `{!Collab}.

Implicit Types (as_completed : list Row.t → list Row.t).

Lemma truediv_ok (a b : nat) :
  b ≠ 0 → truediv a b = Ok (Z.of_nat a # Pos.of_nat b).
Proof. intros Hb. unfold truediv. by destruct (Nat.eqb_spec b 0). Qed.

Lemma truediv_zero (a : nat) : truediv a 0 = Raise ZeroDivisionError.
Proof. reflexivity. Qed.

(** The block never raises. *)
Lemma print_statistics_ok (st : Tally.t) :
  ∃ out, print_statistics st = Ok out.
Proof.
  unfold print_statistics.
  destruct (Nat.ltb_spec 0 (Tally.total st)) as [Hpos|Hzero].
  - rewrite !truediv_ok by lia. simpl. eauto.
  - simpl. eauto.
Qed.

(** [print_statistics] reads the counters only. *)
Lemma print_statistics_summary (st st' : Tally.t) :
  summary_of st = summary_of st' →
  print_statistics st = print_statistics st'.
Proof.
  destruct st, st'. unfold summary_of, print_statistics. simpl.
  by intros [= -> -> -> ->].
Qed.

(** [main] by cases on its two fatal collaborators. *)
Lemma main_cases as_completed (args : Args) :
  match load_ground_truth META_CSV, os_listdir AUDIO_DIR with
  | Raise e, _ => main as_completed args = Raise e
  | Ok _, Raise e => main as_completed args = Raise e
  | Ok gt, Ok listing =>
      let st := classify_all as_completed (threads args) gt
                  (select_files (all args) listing) in
      ∃ out,
        print_statistics st = Ok out
        ∧ main as_completed args
          = Ok {| results_csv := write_csv (Tally.results st);
                  console := out |}
  end.
Proof.
  unfold main.
  destruct (load_ground_truth META_CSV) as [gt|e]; simpl; [|done].
  destruct (os_listdir AUDIO_DIR) as [listing|e]; simpl; [|done].
  destruct (print_statistics_ok
              (classify_all as_completed (threads args) gt
                 (select_files (all args) listing))) as [out Hout].
  exists out. by rewrite Hout.
Qed.

End Main.

(** * The claims *)

(** C1. The label of a present pitch estimate [f] is [male] iff
    85 <= f <= 150, [female] iff 150 < f <= 255 and [unclassified] otherwise;
    85.0 and 150.0 are [male], 255.0 is [female], and every [f] below 85 or
    above 255 is [unclassified].  Stated on the float comparisons of the
    script for every binary64 value and, for the valid finite ones, on the
    rational the float denotes; an estimate that is not finite is
    [unclassified]. *)
Theorem gender_rule_bands (f : float) :
  (gender_rule f = "male"
     ↔ Float64.leb (Float64.of_int 85) f = true
       ∧ Float64.leb f (Float64.of_int 150) = true)
  ∧ (gender_rule f = "female"
     ↔ Float64.ltb (Float64.of_int 150) f = true
       ∧ Float64.leb f (Float64.of_int 255) = true)
  ∧ (gender_rule f = "unclassified"
     ↔ ¬ (Float64.leb (Float64.of_int 85) f = true
          ∧ Float64.leb f (Float64.of_int 150) = true)
       ∧ ¬ (Float64.ltb (Float64.of_int 150) f = true
            ∧ Float64.leb f (Float64.of_int 255) = true))
  ∧ gender_rule (Float64.of_int 85) = "male"
  ∧ gender_rule (Float64.of_int 150) = "male"
  ∧ gender_rule (Float64.of_int 255) = "female"
  ∧ (Float64.ltb f (Float64.of_int 85) = true
     ∨ Float64.ltb (Float64.of_int 255) f = true
     → gender_rule f = "unclassified")
  ∧ (Float64.valid f = true → Float64.is_finite f = true →
     (gender_rule f = "male" ↔ (85 <= Float64.to_Q f <= 150)%Q)
     ∧ (gender_rule f = "female"
        ↔ (150 < Float64.to_Q f)%Q ∧ (Float64.to_Q f <= 255)%Q)
     ∧ (gender_rule f = "unclassified"
        ↔ (Float64.to_Q f < 85)%Q ∨ (255 < Float64.to_Q f)%Q))
  ∧ (Float64.is_finite f = false → gender_rule f = "unclassified").
Proof.
  assert (Hbands :
    (gender_rule f = "male"
       ↔ Float64.leb (Float64.of_int 85) f = true
         ∧ Float64.leb f (Float64.of_int 150) = true)
    ∧ (gender_rule f = "female"
       ↔ Float64.ltb (Float64.of_int 150) f = true
         ∧ Float64.leb f (Float64.of_int 255) = true)
    ∧ (gender_rule f = "unclassified"
       ↔ ¬ (Float64.leb (Float64.of_int 85) f = true
            ∧ Float64.leb f (Float64.of_int 150) = true)
         ∧ ¬ (Float64.ltb (Float64.of_int 150) f = true
              ∧ Float64.leb f (Float64.of_int 255) = true))).
  { unfold gender_rule.
    pose proof (leb_not_ltb f (Float64.of_int 150)) as Hx.
    destruct (Float64.leb (Float64.of_int 85) f),
      (Float64.leb f (Float64.of_int 150)),
      (Float64.ltb (Float64.of_int 150) f),
      (Float64.leb f (Float64.of_int 255)); simpl; intuition congruence. }
  destruct Hbands as (Hmale & Hfemale & Hun).
  split; [exact Hmale|]. split; [exact Hfemale|]. split; [exact Hun|].
  do 3 (split; [by vm_compute|]).
  split; [|split].
  - (* below 85 or above 255 *)
    intros [Hlow|Hhigh]; apply Hun.
    + split; intros [H1 H2].
      * by rewrite (ltb_not_leb _ _ Hlow) in H1.
      * pose proof (ltb_leb_trans _ _ _ H1 (ltb_leb _ _ Hlow)) as Habs.
        by vm_compute in Habs.
    + split; intros [H1 H2].
      * pose proof (ltb_leb_trans _ _ _ Hhigh H2) as Habs.
        by vm_compute in Habs.
      * by rewrite (ltb_not_leb _ _ Hhigh) in H2.
  - (* the rationals *)
    intros Vf Ff.
    destruct (threshold_exact 85) as (V85 & F85 & Q85); [tauto|].
    destruct (threshold_exact 150) as (V150 & F150 & Q150); [tauto|].
    destruct (threshold_exact 255) as (V255 & F255 & Q255); [tauto|].
    pose proof (leb_to_Q _ _ V85 Vf F85 Ff) as L85.
    pose proof (leb_to_Q _ _ Vf V150 Ff F150) as L150.
    pose proof (ltb_to_Q _ _ V150 Vf F150 Ff) as G150.
    pose proof (leb_to_Q _ _ Vf V255 Ff F255) as L255.
    rewrite Q85 in L85. rewrite Q150 in L150, G150. rewrite Q255 in L255.
    change (inject_Z 85) with 85%Q in *.
    change (inject_Z 150) with 150%Q in *.
    change (inject_Z 255) with 255%Q in *.
    rewrite Hmale, Hfemale, Hun, L85, L150, G150, L255.
    split; [tauto|]. split; [tauto|]. split.
    + intros [Hm Hf].
      destruct (Qlt_le_dec (Float64.to_Q f) 85) as [?|H85]; [by left|right].
      destruct (Qlt_le_dec 255 (Float64.to_Q f)) as [?|H255]; [done|].
      destruct (Qlt_le_dec 150 (Float64.to_Q f)) as [?|H150]; tauto.
    + intros [Hlow|Hhigh]; split; intros [H1 H2].
      * by apply (Qlt_not_le _ _ Hlow).
      * apply (Qlt_not_le _ _ Hlow). apply Qlt_le_weak.
        eapply Qlt_trans; [|exact H1]. done.
      * apply (Qlt_not_le _ _ Hhigh). eapply Qle_trans; [exact H2|]. done.
      * by apply (Qlt_not_le _ _ Hhigh).
  - apply gender_rule_nonfinite.
Qed.

Lemma gender_rule_bands_witness :
  Float64.valid (Demo.f64 120) = true
  ∧ Float64.is_finite (Demo.f64 120) = true
  ∧ (gender_rule (Demo.f64 120) = "male"
     ↔ (85 <= Float64.to_Q (Demo.f64 120) <= 150)%Q).
Proof.
  split; [reflexivity|]. split; [reflexivity|].
  destruct (gender_rule_bands (Demo.f64 120)) as (_ & _ & _ & _ & _ & _ & _ & H & _).
  exact (proj1 (H eq_refl eq_refl)).
Defined.

(** The boundary law of the specification at the decimals next to the
    thresholds. *)
Example gender_rule_boundary_law :
  gender_rule Demo.f_150_0001 = "female"
  ∧ gender_rule Demo.f_255_0001 = "unclassified"
  ∧ gender_rule Demo.f_84_9999 = "unclassified".
Proof. by vm_compute. Qed.

(** ** Facts about the concrete world *)

Lemma last_first_fair : fair Demo.last_first.
Proof. intros futures. apply reverse_Permutation. Qed.

Lemma demo_truth : load_ground_truth (H := Demo.world) META_CSV = Ok Demo.truth.
Proof. by vm_compute. Qed.

Lemma demo_first_ten : select_files false Demo.listing = Demo.first_ten.
Proof. by vm_compute. Qed.

(** The four end-to-end scenarios of the specification, in the concrete
    world: a voiced male clip labelled male, a clip with no voiced frame, a
    clip at 200 Hz labelled male, and a clip that does not decode. *)
Example scenarios :
  let row fname := process_file (H := Demo.world) (fname, Demo.truth) in
  csv_row (row "clip1.mp3") = ["clip1.mp3"; "male"; "120.00"; "male"; "True"]
  ∧ Row.correct (row "clip1.mp3") = true
  ∧ csv_row (row "clip2.mp3")
    = ["clip2.mp3"; "unclassified"; ""; "female"; "False"]
  ∧ Row.unclassified (row "clip2.mp3") = true
  ∧ csv_row (row "clip3.mp3")
    = ["clip3.mp3"; "female"; "200.00"; "male"; "False"]
  ∧ Row.incorrect (row "clip3.mp3") = true
  ∧ csv_row (row "clip4.mp3") = ["clip4.mp3"; "error"; ""; "male"; "False"]
  ∧ Row.unclassified (row "clip4.mp3") = true.
Proof. by vm_compute. Qed.

(** C2. Every record [process_file] returns has exactly one of its flags
    [correct], [incorrect], [unclassified] set, whatever label was predicted
    (one of [male], [female], [unclassified], [error]) and whatever the
    ground-truth label is, [unknown] included. *)
Theorem record_flags_exclusive `{!Collab}
    (fname : string) (ground_truth : gmap string string) :
  let r := process_file (fname, ground_truth) in
  Row.predicted r ∈ ["male"; "female"; "unclassified"; "error"]
  ∧ exactly_one (Row.correct r) (Row.incorrect r) (Row.unclassified r).
Proof.
  simpl. split; [|apply (process_file_exactly_one (fname, ground_truth))].
  destruct (process_file_fields fname ground_truth) as (_ & -> & _).
  unfold classify_gender, classify_gender_try.
  destruct (librosa_load _) as [[audio fs]|e]; simpl; [|set_solver].
  destruct (librosa_pyin _ _ _ _) as [f0|e]; simpl; [|set_solver].
  destruct (length (voiced f0) =? 0)%nat; simpl; [set_solver|].
  unfold gender_rule.
  repeat (case_match; simpl); set_solver.
Qed.

(** C4. When a run is over, [total] is the number of records, each of
    [correct], [incorrect] and [unclassified] is the number of records with
    that flag set, and [total = correct + incorrect + unclassified]. *)
Theorem tally_adds_up `{!Collab} (as_completed : list Row.t → list Row.t)
    (threads : Z) (ground_truth : gmap string string)
    (audio_files : list string) :
  fair as_completed →
  let st := classify_all as_completed threads ground_truth audio_files in
  Tally.total st
  = Tally.correct st + Tally.incorrect st + Tally.unclassified st
  ∧ Tally.total st = length (Tally.results st)
  ∧ Tally.total st = length audio_files
  ∧ Tally.correct st = count_flag Row.correct (Tally.results st)
  ∧ Tally.incorrect st = count_flag Row.incorrect (Tally.results st)
  ∧ Tally.unclassified st = count_flag Row.unclassified (Tally.results st).
Proof.
  intros Hfair.
  destruct (classify_all_tally as_completed threads ground_truth audio_files
              Hfair) as (Hres & Htot & Hc & Hi & Hu).
  simpl. rewrite Hres, Htot, Hc, Hi, Hu.
  pose proof (arrival_well_formed _ threads ground_truth audio_files Hfair)
    as Hwf.
  split; [by apply count_flag_partition|].
  split; [done|]. split; [|done].
  rewrite (arrival_perm _ _ _ _ Hfair). apply length_fmap.
Qed.

Lemma tally_adds_up_witness :
  fair Demo.last_first
  ∧ let st := classify_all (H := Demo.world) Demo.last_first 4 Demo.truth
                Demo.first_ten in
    Tally.total st
    = Tally.correct st + Tally.incorrect st + Tally.unclassified st.
Proof.
  split; [exact last_first_fair|].
  exact (proj1 (tally_adds_up (H := Demo.world) Demo.last_first 4 Demo.truth
                  Demo.first_ten last_first_fair)).
Defined.

(** C8. The counters the collection loop maintains are, after every row it
    has taken and so when it ends, the summary obtained by one fold over the
    rows collected so far, counting them by their flags; the loop alone
    writes them, from the rows the workers returned. *)
Theorem counters_refine_fold `{!Collab}
    (as_completed : list Row.t → list Row.t) (threads : Z)
    (ground_truth : gmap string string) (audio_files : list string) :
  fair as_completed →
  let st := classify_all as_completed threads ground_truth audio_files in
  let rows := arrival as_completed threads ground_truth audio_files in
  st = foldl collect tally_init rows
  ∧ Tally.results st = rows
  ∧ summary_of st = summary_fold (Tally.results st)
  ∧ ∀ n, summary_of (foldl collect tally_init (take n rows))
         = summary_fold (take n rows).
Proof.
  intros Hfair. simpl.
  pose proof (arrival_well_formed _ threads ground_truth audio_files Hfair)
    as Hwf.
  assert (∀ rows, Forall well_formed rows →
            Tally.results (foldl collect tally_init rows) = rows
            ∧ summary_of (foldl collect tally_init rows) = summary_fold rows)
    as Hfold.
  { intros rows Hrows.
    destruct (foldl_collect rows Hrows tally_init) as (Hr & Ht & Hc & Hi & Hu).
    split; [exact Hr|].
    rewrite summary_fold_counts. unfold summary_of.
    by rewrite Ht, Hc, Hi, Hu. }
  rewrite classify_all_arrival.
  destruct (Hfold _ Hwf) as [Hres Hsum].
  split; [done|]. split; [done|]. split; [by rewrite Hres|].
  intros n. apply Hfold. by apply Forall_take.
Qed.

Lemma counters_refine_fold_witness :
  fair Demo.last_first
  ∧ let st := classify_all (H := Demo.world) Demo.last_first 4 Demo.truth
                Demo.first_ten in
    summary_of st = summary_fold (Tally.results st).
Proof.
  split; [exact last_first_fair|].
  exact (proj1 (proj2 (proj2
    (counters_refine_fold (H := Demo.world) Demo.last_first 4 Demo.truth
       Demo.first_ten last_first_fair)))).
Defined.

(** ** Faults *)

Section Faults.

Context `{!Collab}.

(** The [try] raises exactly when the file does not decode or the pitch
    tracker raises on it. *)
Lemma classify_gender_try_raises (audio_path : string) :
  raises (classify_gender_try audio_path)
  ↔ raises (librosa_load audio_path)
    ∨ ∃ audio_data fs,
        librosa_load audio_path = Ok (audio_data, fs)
        ∧ raises (librosa_pyin audio_data 50 300 fs).
Proof.
  unfold classify_gender_try, raises.
  destruct (librosa_load audio_path) as [[audio_data fs]|e]; simpl.
  - destruct (librosa_pyin audio_data 50 300 fs) as [f0|e] eqn:Hpyin; simpl.
    + split.
      * by destruct (length (voiced f0) =? 0)%nat; intros [e ?].
      * intros [[e ?]|(a & r & [= <- <-] & e & He)]; [done|].
        by rewrite Hpyin in He.
    + split; [|by eauto]. intros _. right. exists audio_data, fs.
      rewrite Hpyin. eauto.
  - split; [|by eauto]. intros _. left. eauto.
Qed.

Lemma classify_gender_fault (audio_path : string) :
  raises (classify_gender_try audio_path) →
  classify_gender audio_path = ("error", None).
Proof. intros [e He]. unfold classify_gender. by rewrite He. Qed.

End Faults.

(** C5. A file that does not decode, or on which the pitch tracker raises,
    does not stop the batch: its record has the predicted label [error], its
    [unclassified] flag set and the other two clear, an empty frequency and
    the ground-truth label looked up as for any file; the run still returns
    one record per file and counts this one as unclassified; and [main]
    returns whenever the table and the directory can be read. *)
Theorem fault_is_contained `{!Collab}
    (as_completed : list Row.t → list Row.t) (workers : Z)
    (ground_truth : gmap string string) (audio_files : list string)
    (fname : string) :
  fair as_completed →
  fname ∈ audio_files →
  (raises (librosa_load (os_path_join AUDIO_DIR fname))
   ∨ ∃ audio_data fs,
       librosa_load (os_path_join AUDIO_DIR fname) = Ok (audio_data, fs)
       ∧ raises (librosa_pyin audio_data 50 300 fs)) →
  let r := process_file (fname, ground_truth) in
  let st := classify_all as_completed workers ground_truth audio_files in
  Row.file r = fname
  ∧ Row.predicted r = "error"
  ∧ Row.mean_freq r = ""
  ∧ Row.ground_truth r = default "unknown" (ground_truth !! fname)
  ∧ Row.unclassified r = true
  ∧ Row.correct r = false
  ∧ Row.incorrect r = false
  ∧ r ∈ Tally.results st
  ∧ Row.file <$> Tally.results st ≡ₚ audio_files
  ∧ Tally.total st = length audio_files
  ∧ 0 < Tally.unclassified st
  ∧ ∀ args gt listing,
      load_ground_truth META_CSV = Ok gt →
      os_listdir AUDIO_DIR = Ok listing →
      ∃ out, main as_completed args = Ok out
             ∧ length (results_csv out)
               = S (length (select_files (all args) listing)).
Proof.
  intros Hfair Hin Hfault%classify_gender_try_raises%classify_gender_fault.
  cbv zeta.
  destruct (process_file_fields fname ground_truth)
    as (Hfile & Hpred & Hfreq & Hgt & Hc & Hi & Hu).
  rewrite Hfault in Hpred, Hfreq. cbn [fst snd from_option] in Hpred, Hfreq.
  rewrite Hpred in Hc, Hi, Hu.
  rewrite andb_false_r in Hc.
  change (str_in "error" ["male"; "female"]) with false in Hi, Hu.
  cbn [andb negb] in Hi, Hu.
  destruct (classify_all_tally as_completed workers ground_truth audio_files
              Hfair) as (Hres & Htot & _ & _ & Hcount).
  assert (process_file (fname, ground_truth)
          ∈ arrival as_completed workers ground_truth audio_files) as Hrow.
  { rewrite (arrival_perm _ _ _ _ Hfair).
    apply (list_elem_of_fmap_2 (λ fname, process_file (fname, ground_truth))).
    exact Hin. }
  do 7 (split; [done|]).
  split; [by rewrite Hres|].
  split; [rewrite Hres; by apply arrival_files|].
  split; [rewrite Htot, (arrival_perm _ _ _ _ Hfair); apply length_fmap|].
  split.
  - rewrite Hcount. unfold count_flag.
    assert (process_file (fname, ground_truth)
            ∈ filter (λ r, Row.unclassified r = true)
                (arrival as_completed workers ground_truth audio_files))
      as Hfil by (by apply list_elem_of_filter).
    destruct (filter _ _); [by apply elem_of_nil in Hfil | simpl; lia].
  - intros args gt listing Hgt' Hls.
    pose proof (main_cases as_completed args) as Hmain.
    rewrite Hgt', Hls in Hmain. destruct Hmain as (out & _ & ->).
    eexists. split; [done|]. simpl. f_equal.
    rewrite length_fmap.
    destruct (classify_all_tally as_completed (threads args) gt
                (select_files (all args) listing) Hfair) as (-> & _).
    rewrite (arrival_perm _ _ _ _ Hfair). apply length_fmap.
Qed.

Lemma fault_is_contained_witness :
  fair Demo.last_first
  ∧ "clip4.mp3" ∈ Demo.first_ten
  ∧ raises (librosa_load (Collab := Demo.world)
              (os_path_join AUDIO_DIR "clip4.mp3"))
  ∧ let r := process_file (H := Demo.world) ("clip4.mp3", Demo.truth) in
    Row.predicted r = "error"
    ∧ Row.ground_truth r = "male"
    ∧ Row.unclassified r = true.
Proof.
  assert ("clip4.mp3" ∈ Demo.first_ten) as Hin by (by repeat constructor).
  assert (raises (librosa_load (Collab := Demo.world)
                    (os_path_join AUDIO_DIR "clip4.mp3"))) as Hraise
    by (by eexists).
  split; [exact last_first_fair|]. split; [exact Hin|]. split; [exact Hraise|].
  destruct (fault_is_contained (H := Demo.world) Demo.last_first 4 Demo.truth
              Demo.first_ten "clip4.mp3" last_first_fair Hin
              (or_introl Hraise))
    as (_ & Hpred & _ & Hgt & Hu & _).
  split; [exact Hpred|]. split; [exact Hgt|]. exact Hu.
Defined.

(** C6. A file identifier that is not a key of the ground-truth table gets
    the label [unknown], and a record whose ground-truth label is [unknown]
    never has [correct] set, whatever was predicted. *)
Theorem unknown_never_correct `{!Collab}
    (fname : string) (ground_truth : gmap string string) :
  let r := process_file (fname, ground_truth) in
  (ground_truth !! fname = None → Row.ground_truth r = "unknown")
  ∧ (Row.ground_truth r = "unknown" → Row.correct r = false)
  ∧ (ground_truth !! fname = None → Row.correct r = false).
Proof.
  cbv zeta.
  destruct (process_file_fields fname ground_truth)
    as (_ & _ & _ & Hgt & Hc & _).
  assert (Row.ground_truth (process_file (fname, ground_truth)) = "unknown" →
          Row.correct (process_file (fname, ground_truth)) = false) as Hnever.
  { intros Hunknown. rewrite Hc, Hunknown.
    destruct (String.eqb_spec (Row.predicted (process_file (fname, ground_truth)))
                "unknown") as [->|_]; done. }
  assert (ground_truth !! fname = None →
          Row.ground_truth (process_file (fname, ground_truth)) = "unknown")
    as Habsent.
  { intros Hnone. by rewrite Hgt, Hnone. }
  split; [exact Habsent|]. split; [exact Hnever|].
  intros Hnone. by apply Hnever, Habsent.
Qed.

Lemma unknown_never_correct_witness :
  Demo.truth !! "clip5.mp3" = None
  ∧ let r := process_file (H := Demo.world) ("clip5.mp3", Demo.truth) in
    Row.ground_truth r = "unknown" ∧ Row.correct r = false.
Proof.
  assert (Demo.truth !! "clip5.mp3" = None) as Hnone by (by vm_compute).
  split; [exact Hnone|].
  destruct (unknown_never_correct (H := Demo.world) "clip5.mp3" Demo.truth)
    as (Habsent & _ & Hnever).
  split; [exact (Habsent Hnone) | exact (Hnever Hnone)].
Defined.

(** C7. The pitch estimate of a decoded file: the unvoiced frames, which
    the tracker marks with NaN, are dropped and the voiced ones kept in
    order; when none is left the result is [unclassified] with no
    frequency; otherwise the frequency is [np.mean] of the voiced frames and
    the label is the pitch rule at that mean. *)
Theorem estimate_is_mean_of_voiced `{!Collab}
    (audio_path : string) (audio_data : samples) (fs : rate)
    (f0 : list float) :
  librosa_load audio_path = Ok (audio_data, fs) →
  librosa_pyin audio_data 50 300 fs = Ok f0 →
  (∀ x, x ∈ voiced f0 ↔ x ∈ f0 ∧ Float64.isnan x = false)
  ∧ voiced f0 `sublist_of` f0
  ∧ (∀ x, x ∈ f0 → Float64.isnan x = true → x ∉ voiced f0)
  ∧ (voiced f0 = [] → classify_gender audio_path = ("unclassified", None))
  ∧ (voiced f0 ≠ [] →
     classify_gender audio_path
     = (gender_rule (np_mean (voiced f0)), Some (np_mean (voiced f0)))).
Proof.
  intros Hload Hpyin.
  assert (∀ x, x ∈ voiced f0 ↔ x ∈ f0 ∧ Float64.isnan x = false) as Hvoiced.
  { intros x. unfold voiced. rewrite list_elem_of_filter. tauto. }
  split; [exact Hvoiced|]. split; [apply sublist_filter|].
  split.
  { intros x _ Hnan [_ Hnot]%Hvoiced. congruence. }
  unfold classify_gender, classify_gender_try.
  rewrite Hload. simpl. rewrite Hpyin. simpl.
  split; intros Hv.
  - by rewrite Hv.
  - destruct (voiced f0); done.
Qed.

Lemma estimate_is_mean_of_voiced_witness :
  let f0 := [Demo.f64 119; S754_nan; Demo.f64 121; Demo.f64 120] in
  librosa_load (Collab := Demo.world) "data/audio/clip1.mp3"
  = Ok ("data/audio/clip1.mp3", ())
  ∧ librosa_pyin (Collab := Demo.world) "data/audio/clip1.mp3" 50 300 ()
    = Ok f0
  ∧ voiced f0 = [Demo.f64 119; Demo.f64 121; Demo.f64 120]
  ∧ classify_gender (H := Demo.world) "data/audio/clip1.mp3"
    = ("male", Some (Demo.f64 120)).
Proof.
  split; [reflexivity|]. split; [reflexivity|]. split; [reflexivity|].
  destruct (estimate_is_mean_of_voiced (H := Demo.world)
              "data/audio/clip1.mp3" "data/audio/clip1.mp3" ()
              [Demo.f64 119; S754_nan; Demo.f64 121; Demo.f64 120]
              eq_refl eq_refl) as (_ & _ & _ & _ & Hmean).
  rewrite Hmean; [by vm_compute | discriminate].
Defined.

(** ** The candidate list *)

Lemma candidates_sorted (listing : list string) :
  Sorted String.le (candidates listing).
Proof. apply (Sorted_merge_sort String.le). Qed.

Lemma candidates_perm (listing : list string) :
  candidates listing ≡ₚ filter (λ f, endswith f ".mp3" = true) listing.
Proof. apply (merge_sort_Permutation String.le). Qed.

(** The candidate list does not depend on the order of the listing. *)
Lemma candidates_order_free (listing listing' : list string) :
  listing ≡ₚ listing' → candidates listing = candidates listing'.
Proof.
  intros Hp.
  apply (Sorted_unique String.le); try apply candidates_sorted.
  by rewrite !candidates_perm, Hp.
Qed.

Lemma select_files_candidates (all : bool) (listing : list string) :
  select_files all listing
  = if all then candidates listing else take 10 (candidates listing).
Proof. unfold select_files, candidates. by destruct all. Qed.

(** C9. Without [--all] the run processes the first 10 identifiers of the
    sorted candidate list, not the first 100 of the help text; with [--all]
    it processes the whole sorted candidate list. *)
Theorem default_run_takes_ten `{!Collab}
    (as_completed : list Row.t → list Row.t) (workers : Z)
    (ground_truth : gmap string string) (listing : list string) :
  fair as_completed →
  let processed all :=
    Row.file <$> Tally.results
      (classify_all as_completed workers ground_truth
         (select_files all listing)) in
  Sorted String.le (candidates listing)
  ∧ candidates listing ≡ₚ filter (λ f, endswith f ".mp3" = true) listing
  ∧ select_files false listing = take 10 (candidates listing)
  ∧ select_files true listing = candidates listing
  ∧ processed false ≡ₚ take 10 (candidates listing)
  ∧ processed true ≡ₚ candidates listing
  ∧ ((workers ≤ 1)%Z →
     processed false = take 10 (candidates listing)
     ∧ processed true = candidates listing)
  ∧ ∃ listing', select_files false listing' ≠ take 100 (candidates listing').
Proof.
  intros Hfair processed.
  assert (∀ all, processed all ≡ₚ select_files all listing) as Hperm.
  { intros all. unfold processed.
    destruct (classify_all_tally as_completed workers ground_truth
                (select_files all listing) Hfair) as (-> & _).
    by apply arrival_files. }
  assert (∀ all, (workers ≤ 1)%Z → processed all = select_files all listing)
    as Hseq.
  { intros all Hw. unfold processed.
    destruct (classify_all_tally as_completed workers ground_truth
                (select_files all listing) Hfair) as (-> & _).
    rewrite arrival_sequential by done.
    rewrite <- list_fmap_compose.
    rewrite <- (list_fmap_id (select_files all listing)) at 2.
    apply list_fmap_ext. intros _ fname _. simpl.
    apply (process_file_fields fname ground_truth). }
  split; [apply candidates_sorted|]. split; [apply candidates_perm|].
  split; [apply select_files_candidates|].
  split; [apply select_files_candidates|].
  split; [by rewrite Hperm, select_files_candidates|].
  split; [by rewrite Hperm, select_files_candidates|].
  split.
  - intros Hw. by rewrite !Hseq, !select_files_candidates.
  - exists Demo.listing. by vm_compute.
Qed.

Lemma default_run_takes_ten_witness :
  fair Demo.last_first
  ∧ select_files false Demo.listing = take 10 (candidates Demo.listing)
  ∧ Row.file <$> Tally.results
      (classify_all (H := Demo.world) Demo.last_first 4 Demo.truth
         (select_files false Demo.listing))
    ≡ₚ take 10 (candidates Demo.listing).
Proof.
  split; [exact last_first_fair|].
  destruct (default_run_takes_ten (H := Demo.world) Demo.last_first 4
              Demo.truth Demo.listing last_first_fair)
    as (_ & _ & Hsel & _ & Hproc & _).
  split; [exact Hsel | exact Hproc].
Defined.

(** C10. The three rates are computed under the guard [total > 0] only:
    the statistics block never raises, although the division raises on a
    zero total; so [main] raises nothing but what reading the table or the
    directory raises, and on an empty candidate set it returns, having
    written the header of the results table and no row, and printed the
    counts and no rate. *)
Theorem rates_are_guarded `{!Collab}
    (as_completed : list Row.t → list Row.t) (args : Args) :
  fair as_completed →
  (∀ a, truediv a 0 = Raise ZeroDivisionError)
  ∧ (∀ st, ∃ out, print_statistics st = Ok out)
  ∧ (∀ e, main as_completed args = Raise e →
          load_ground_truth META_CSV = Raise e
          ∨ os_listdir AUDIO_DIR = Raise e)
  ∧ (∀ gt listing,
       load_ground_truth META_CSV = Ok gt →
       os_listdir AUDIO_DIR = Ok listing →
       select_files (all args) listing = [] →
       Tally.total
         (classify_all as_completed (threads args) gt
            (select_files (all args) listing)) = 0
       ∧ main as_completed args
         = Ok {| results_csv :=
                   [["file"; "predicted"; "mean_freq"; "ground_truth";
                     "correct"]];
                 console :=
                   [String (Ascii.ascii_of_nat 10)
                      "--- Classification Statistics ---";
                    "Total files: 0";
                    "Correct (male/female): 0";
                    "Incorrect (male/female): 0";
                    "Unclassified: 0";
                    "Results written to results.csv"] |}).
Proof.
  intros Hfair.
  split; [apply truediv_zero|]. split; [apply print_statistics_ok|].
  pose proof (main_cases as_completed args) as Hmain.
  split.
  - intros e He.
    destruct (load_ground_truth META_CSV) as [gt|e']; [|left; congruence].
    destruct (os_listdir AUDIO_DIR) as [listing|e']; [|right; congruence].
    destruct Hmain as (out & _ & Hout). congruence.
  - intros gt listing Hgt Hls Hempty.
    rewrite Hgt, Hls, Hempty in Hmain. rewrite Hempty.
    assert (classify_all as_completed (threads args) gt [] = tally_init)
      as Hinit.
    { rewrite classify_all_arrival.
      pose proof (arrival_perm as_completed (threads args) gt [] Hfair)
        as Hnil.
      apply Permutation_nil_r in Hnil. by rewrite Hnil. }
    rewrite Hinit in Hmain. split; [by rewrite Hinit|].
    destruct Hmain as (out & Hout & ->).
    vm_compute in Hout. injection Hout as <-. reflexivity.
Qed.

Lemma rates_are_guarded_witness :
  fair Demo.last_first
  ∧ ∃ out, print_statistics (H := Demo.world) tally_init = Ok out.
Proof.
  split; [exact last_first_fair|].
  exact (proj1 (proj2
    (rates_are_guarded (H := Demo.world) Demo.last_first
       {| all := false; threads := 4 |} last_first_fair)) tally_init).
Defined.

(** ** Two runs *)

Section TwoRuns.

Context `{!Collab}.

Implicit Types (sched : list Row.t → list Row.t).
Implicit Types (gt : gmap string string) (files : list string).

(** A sequential run does not ask the pool. *)
Lemma classify_all_sequential sched sched' (t t' : Z) gt files :
  (t ≤ 1)%Z → (t' ≤ 1)%Z →
  classify_all sched t gt files = classify_all sched' t' gt files.
Proof.
  intros Ht Ht'. unfold classify_all.
  destruct (Z.ltb_spec 1 t); [lia|]. by destruct (Z.ltb_spec 1 t'); [lia|].
Qed.

(** Any two runs over the same files collect the same rows up to order
    and end with the same counters. *)
Lemma classify_all_any_order sched sched' (t t' : Z) gt files :
  fair sched → fair sched' →
  Tally.results (classify_all sched t gt files)
  ≡ₚ Tally.results (classify_all sched' t' gt files)
  ∧ summary_of (classify_all sched t gt files)
    = summary_of (classify_all sched' t' gt files).
Proof.
  intros Hfair Hfair'.
  destruct (classify_all_tally sched t gt files Hfair)
    as (Hr & Ht & Hc & Hi & Hu).
  destruct (classify_all_tally sched' t' gt files Hfair')
    as (Hr' & Ht' & Hc' & Hi' & Hu').
  assert (arrival sched t gt files ≡ₚ arrival sched' t' gt files) as Hp.
  { by rewrite (arrival_perm _ _ _ _ Hfair), (arrival_perm _ _ _ _ Hfair'). }
  split; [by rewrite Hr, Hr'|].
  unfold summary_of. rewrite Ht, Hc, Hi, Hu, Ht', Hc', Hi', Hu'.
  by rewrite !(count_flag_perm _ _ _ Hp), Hp.
Qed.

End TwoRuns.

(** C3. For one candidate set, in whatever order the directory lists it:
    two runs with one thread write the same results table and print the
    same statistics; a run with one thread and a run with several write the
    same rows up to their order, under the same header, and print the same
    statistics; and the tallies behind them hold the same records up to
    order and the same counts. *)
Theorem run_deterministic `{!Collab}
    (sched1 sched2 : list Row.t → list Row.t) (all : bool) (t1 t1' t4 : Z) :
  (t1 ≤ 1)%Z → (t1' ≤ 1)%Z → (1 < t4)%Z → fair sched2 →
  main sched1 {| all := all; threads := t1 |}
  = main sched2 {| all := all; threads := t1' |}
  ∧ match main sched1 {| all := all; threads := t1 |},
          main sched2 {| all := all; threads := t4 |} with
    | Ok o1, Ok o4 =>
        (∃ rows1 rows4,
            results_csv o1 = fieldnames :: rows1
            ∧ results_csv o4 = fieldnames :: rows4
            ∧ rows4 ≡ₚ rows1)
        ∧ console o4 = console o1
    | Raise e1, Raise e4 => e1 = e4
    | _, _ => False
    end
  ∧ ∀ gt listing listing',
      listing ≡ₚ listing' →
      let s1 := classify_all sched1 t1 gt (select_files all listing) in
      let s1' := classify_all sched2 t1' gt (select_files all listing') in
      let s4 := classify_all sched2 t4 gt (select_files all listing') in
      s1 = s1'
      ∧ Tally.results s4 ≡ₚ Tally.results s1
      ∧ summary_of s4 = summary_of s1.
Proof.
  intros Ht1 Ht1' Ht4 Hfair.
  assert (∀ gt files,
            Tally.results (classify_all sched2 t4 gt files)
            ≡ₚ Tally.results (classify_all sched1 t1 gt files)
            ∧ summary_of (classify_all sched2 t4 gt files)
              = summary_of (classify_all sched1 t1 gt files)) as Hany.
  { intros gt files.
    rewrite (classify_all_sequential sched1 sched2 t1 t1 gt files Ht1 Ht1).
    by apply classify_all_any_order. }
  split; [|split].
  - unfold main. simpl.
    destruct (load_ground_truth META_CSV) as [gt|e]; simpl; [|done].
    destruct (os_listdir AUDIO_DIR) as [listing|e]; simpl; [|done].
    by rewrite (classify_all_sequential sched1 sched2 t1 t1' gt _ Ht1 Ht1').
  - pose proof (main_cases sched1 {| all := all; threads := t1 |}) as H1.
    pose proof (main_cases sched2 {| all := all; threads := t4 |}) as H4.
    simpl in H1, H4.
    destruct (load_ground_truth META_CSV) as [gt|e].
    2: { by rewrite H1, H4. }
    destruct (os_listdir AUDIO_DIR) as [listing|e].
    2: { by rewrite H1, H4. }
    destruct H1 as (out1 & Hout1 & ->). destruct H4 as (out4 & Hout4 & ->).
    destruct (Hany gt (select_files all listing)) as [Hperm Hsum].
    simpl. split.
    + eexists _, _. split; [reflexivity|]. split; [reflexivity|].
      by rewrite Hperm.
    + rewrite (print_statistics_summary _ _ Hsum) in Hout4. congruence.
  - intros gt listing listing' Hl. simpl.
    rewrite !select_files_candidates, (candidates_order_free _ _ Hl).
    rewrite <- !select_files_candidates.
    split; [by apply classify_all_sequential|].
    apply Hany.
Qed.

Lemma run_deterministic_witness :
  (1 ≤ 1)%Z ∧ (1 < 4)%Z ∧ fair Demo.last_first
  ∧ main (H := Demo.world) id {| all := false; threads := 1 |}
    = main (H := Demo.world) Demo.last_first {| all := false; threads := 1 |}.
Proof.
  assert (1 ≤ 1)%Z as H1 by lia. assert (1 < 4)%Z as H4 by lia.
  split; [exact H1|]. split; [exact H4|]. split; [exact last_first_fair|].
  exact (proj1 (run_deterministic (H := Demo.world) id Demo.last_first false
                  1 1 4 H1 H1 H4 last_first_fair)).
Defined.

(** * Further properties of the script *)

(** ** load_ground_truth *)

Section Loading.

Context `{!Collab}.

Implicit Types (row : gmap string (option string)).
Implicit Types (rows : list (gmap string (option string))).
Implicit Types (truth : gmap string string).

Lemma load_row_loadable truth row :
  loadable row →
  ∃ k l, row_key row = Some k ∧ row_label row = Some l
         ∧ load_ground_truth_row truth row = Ok (<[k:=l]> truth).
Proof.
  intros [[f Hf] Hg].
  unfold load_ground_truth_row, row_key, row_label. rewrite Hf. simpl.
  destruct (row !! "gender") as [[g|]|]; simpl; [eauto| done |eauto].
Qed.

Lemma load_row_not_loadable truth row :
  ¬ loadable row →
  row_key row = None ∨ row_label row = None.
Proof.
  intros Hn. unfold row_key, row_label, loadable in *.
  destruct (row !! "filename") as [[f|]|]; [|by left..].
  destruct (row !! "gender") as [[g|]|]; [| by right |].
  all: exfalso; apply Hn; split; eauto; done.
Qed.

Lemma load_row_raises truth row :
  ¬ loadable row →
  load_ground_truth_row truth row
  = Raise (Exception (match row !! "filename" with
                      | None => "KeyError"
                      | Some _ => "AttributeError"
                      end)).
Proof.
  intros Hn. unfold load_ground_truth_row, loadable in *.
  destruct (row !! "filename") as [[f|]|]; simpl; [|done..].
  destruct (row !! "gender") as [[g|]|]; simpl; [|done|].
  all: exfalso; apply Hn; split; eauto; done.
Qed.

Lemma load_row_ok_loadable truth row t :
  load_ground_truth_row truth row = Ok t → loadable row.
Proof.
  unfold load_ground_truth_row, loadable.
  destruct (row !! "filename") as [[f|]|]; simpl; [|done..].
  destruct (row !! "gender") as [[g|]|]; simpl; [|done|].
  all: intros _; split; eauto; done.
Qed.

Lemma load_rows_app truth rows rows' :
  load_ground_truth_rows truth (rows ++ rows')
  = (truth' ← load_ground_truth_rows truth rows;
     load_ground_truth_rows truth' rows').
Proof.
  revert truth. induction rows as [|row rows IH]; intros truth; [done|].
  simpl. destruct (load_ground_truth_row truth row) as [t|e]; simpl; [|done].
  apply IH.
Qed.

Lemma load_rows_loadable truth rows :
  Forall loadable rows → ∃ t, load_ground_truth_rows truth rows = Ok t.
Proof.
  intros Hall. revert truth.
  induction Hall as [|row rows Hrow _ IH]; intros truth; simpl; [by eauto|].
  destruct (load_row_loadable truth row Hrow) as (k & l & _ & _ & ->).
  simpl. apply IH.
Qed.

Lemma load_rows_ok_loadable truth rows t :
  load_ground_truth_rows truth rows = Ok t → Forall loadable rows.
Proof.
  revert truth. induction rows as [|row rows IH]; intros truth; [done|].
  simpl. destruct (load_ground_truth_row truth row) as [t'|e] eqn:Hrow;
    simpl; [|done].
  intros Hrest. constructor; [by eapply load_row_ok_loadable|by eapply IH].
Qed.

(** The table after the rows: the label of the last row stored under a key,
    or what was there before. *)
Lemma load_rows_lookup truth rows t (k : string) :
  load_ground_truth_rows truth rows = Ok t →
  t !! k
  = match last (filter (λ row, row_key row = Some k) rows) with
    | Some row => row_label row
    | None => truth !! k
    end.
Proof.
  revert truth t. induction rows as [|row rows IH] using rev_ind;
    intros truth t; [by intros [= ->]|].
  rewrite load_rows_app. simpl.
  destruct (load_ground_truth_rows truth rows) as [t'|e] eqn:Hrows;
    simpl; [|done].
  destruct (load_ground_truth_row t' row) as [t''|e] eqn:Hrow; simpl; [|done].
  intros [= <-].
  pose proof (load_row_ok_loadable _ _ _ Hrow) as Hl.
  destruct (load_row_loadable t' row Hl) as (k' & l & Hk & Hlab & Heq).
  rewrite Heq in Hrow. injection Hrow as <-.
  rewrite filter_app, filter_cons, filter_nil.
  case_decide as Hkey.
  - rewrite last_snoc, Hlab. rewrite Hk in Hkey. injection Hkey as ->.
    apply lookup_insert_eq.
  - rewrite app_nil_r. rewrite lookup_insert_ne by congruence.
    by apply IH.
Qed.

End Loading.

(** X1. [load_ground_truth] returns a table exactly when every row the
    reader yields has its [filename] cell set and no unset [gender] cell. *)
Theorem load_succeeds_iff_rows_loadable `{!Collab}
    (meta_csv : string) (rows : list (gmap string (option string))) :
  csv_DictReader meta_csv = Ok rows →
  (∃ table, load_ground_truth meta_csv = Ok table) ↔ Forall loadable rows.
Proof.
  intros Hreader. unfold load_ground_truth. rewrite Hreader. simpl.
  split.
  - intros [table Htable]. by eapply load_rows_ok_loadable.
  - apply load_rows_loadable.
Qed.

Lemma load_succeeds_iff_rows_loadable_witness :
  csv_DictReader (Collab := Demo.world) "data/meta.csv" = Ok Demo.meta_rows
  ∧ ((∃ table, load_ground_truth (H := Demo.world) "data/meta.csv" = Ok table)
     ↔ Forall loadable Demo.meta_rows).
Proof.
  split; [reflexivity|].
  exact (load_succeeds_iff_rows_loadable (H := Demo.world) "data/meta.csv"
           Demo.meta_rows eq_refl).
Defined.

(** X2. At the first row that cannot be taken the load raises and no table
    is returned: [KeyError] when the row has no [filename] cell at all,
    [AttributeError] when its [filename] or [gender] cell is unset. *)
Theorem load_raises_at_first_bad_row `{!Collab}
    (meta_csv : string) (good rest : list (gmap string (option string)))
    (bad : gmap string (option string)) :
  csv_DictReader meta_csv = Ok (good ++ bad :: rest) →
  Forall loadable good →
  ¬ loadable bad →
  load_ground_truth meta_csv
  = Raise (Exception (match bad !! "filename" with
                      | None => "KeyError"
                      | Some _ => "AttributeError"
                      end)).
Proof.
  intros Hreader Hgood Hbad. unfold load_ground_truth.
  rewrite Hreader. simpl. rewrite load_rows_app.
  destruct (load_rows_loadable ∅ good Hgood) as [t ->]. simpl.
  by rewrite (load_row_raises t bad Hbad).
Qed.

Lemma load_raises_at_first_bad_row_witness :
  let good := [ ({[ "filename" := Some "clip1.mp3"; "gender" := Some "male" ]}
                 : gmap string (option string)) ] in
  let bad : gmap string (option string) := {[ "gender" := Some "female" ]} in
  let rest := [ ({[ "filename" := Some "clip3.mp3"; "gender" := None ]}
                 : gmap string (option string)) ] in
  csv_DictReader (Collab := Damaged.world) META_CSV = Ok (good ++ bad :: rest)
  ∧ Forall loadable good
  ∧ ¬ loadable bad
  ∧ load_ground_truth (H := Damaged.world) META_CSV
    = Raise (Exception "KeyError").
Proof.
  intros good bad rest.
  assert (Forall loadable good) as Hgood.
  { repeat constructor; [by eexists | by vm_compute]. }
  assert (¬ loadable bad) as Hbad.
  { intros [[f Hf] _]. by vm_compute in Hf. }
  split; [reflexivity|]. split; [exact Hgood|]. split; [exact Hbad|].
  exact (load_raises_at_first_bad_row (H := Damaged.world) META_CSV good rest
           bad eq_refl Hgood Hbad).
Defined.

Lemma load_rows_keys `{!Collab}
    (rows : list (gmap string (option string))) (table : gmap string string)
    (k : string) :
  load_ground_truth_rows ∅ rows = Ok table →
  is_Some (table !! k) ↔ ∃ row, row ∈ rows ∧ row_key row = Some k.
Proof.
  intros Hload.
  pose proof (load_rows_ok_loadable _ _ _ Hload) as Hall.
  rewrite (load_rows_lookup ∅ rows table k Hload).
  destruct (last (filter (λ row, row_key row = Some k) rows))
    as [row|] eqn:Hlast.
  - apply last_Some_elem_of, list_elem_of_filter in Hlast as [Hk Hin].
    split; [by eauto|]. intros _.
    rewrite Forall_forall in Hall.
    destruct (load_row_loadable ∅ row (Hall _ Hin)) as (_ & l & _ & -> & _).
    by eexists.
  - rewrite lookup_empty. split; [by intros [? ?]|].
    intros (row & Hin & Hk). apply last_None in Hlast.
    assert (row ∈ filter (λ row, row_key row = Some k) rows) as Hfil
      by (by apply list_elem_of_filter).
    rewrite Hlast in Hfil. by apply elem_of_nil in Hfil.
Qed.

(** X3. The keys of the loaded table are the stripped file names of the
    rows, no more and no fewer; so the table has at most as many entries as
    the file has rows. *)
Theorem loaded_keys_are_row_keys `{!Collab}
    (meta_csv : string) (rows : list (gmap string (option string)))
    (table : gmap string string) :
  csv_DictReader meta_csv = Ok rows →
  load_ground_truth meta_csv = Ok table →
  (∀ k, is_Some (table !! k) ↔ ∃ row, row ∈ rows ∧ row_key row = Some k)
  ∧ (size table ≤ length rows)%nat.
Proof.
  intros Hreader Hload. unfold load_ground_truth in Hload.
  rewrite Hreader in Hload. simpl in Hload.
  assert (∀ k, is_Some (table !! k)
               ↔ ∃ row, row ∈ rows ∧ row_key row = Some k) as Hkeys
    by (intros k; by apply load_rows_keys).
  split; [exact Hkeys|].
  clear Hreader Hkeys. revert table Hload.
  induction rows as [|row rows IH] using rev_ind; intros table.
  - intros [= <-]. by rewrite map_size_empty.
  - rewrite load_rows_app. simpl.
    destruct (load_ground_truth_rows ∅ rows) as [t'|e]; simpl; [|done].
    destruct (load_ground_truth_row t' row) as [t''|e] eqn:Hrow;
      simpl; [|done].
    intros [= <-].
    destruct (load_row_loadable t' row (load_row_ok_loadable _ _ _ Hrow))
      as (k & l & _ & _ & Heq).
    rewrite Heq in Hrow. injection Hrow as <-.
    rewrite length_app. simpl.
    specialize (IH t' eq_refl).
    destruct (t' !! k) as [v|] eqn:Hk.
    + rewrite map_size_insert_Some by done. lia.
    + rewrite map_size_insert_None by done. lia.
Qed.

Lemma loaded_keys_are_row_keys_witness :
  csv_DictReader (Collab := Demo.world) META_CSV = Ok Demo.meta_rows
  ∧ load_ground_truth (H := Demo.world) META_CSV = Ok Demo.truth
  ∧ (size Demo.truth ≤ length Demo.meta_rows)%nat.
Proof.
  split; [reflexivity|]. split; [exact demo_truth|].
  exact (proj2 (loaded_keys_are_row_keys (H := Demo.world) META_CSV
                  Demo.meta_rows Demo.truth eq_refl demo_truth)).
Defined.

Lemma filter_none {A} (P : A → Prop) `{∀ x, Decision (P x)} (l : list A) :
  (∀ x, x ∈ l → ¬ P x) → filter P l = [].
Proof.
  induction l as [|x l IH]; intros Hl; [done|].
  rewrite filter_cons, decide_False by (apply Hl; left).
  apply IH. intros y Hy. apply Hl. by right.
Qed.

(** X4. The last row stored under a file name wins: the table maps the
    stripped file name of a row to that row's stripped and lowercased
    label, a row without a [gender] column giving the label of the empty
    string, unless a later row has the same stripped file name. *)
Theorem last_row_wins `{!Collab}
    (meta_csv : string) (before after : list (gmap string (option string)))
    (row : gmap string (option string)) (table : gmap string string)
    (k : string) :
  csv_DictReader meta_csv = Ok (before ++ row :: after) →
  load_ground_truth meta_csv = Ok table →
  row_key row = Some k →
  (∀ later, later ∈ after → row_key later ≠ Some k) →
  table !! k = row_label row
  ∧ (row !! "gender" = None → table !! k = Some (str_lower (str_strip ""))).
Proof.
  intros Hreader Hload Hk Hlater. unfold load_ground_truth in Hload.
  rewrite Hreader in Hload. simpl in Hload.
  assert (table !! k = row_label row) as Hlookup.
  { rewrite (load_rows_lookup ∅ _ table k Hload).
    rewrite filter_app, filter_cons. rewrite decide_True by done.
    assert (filter (λ r, row_key r = Some k) after = []) as ->.
    { by apply filter_none. }
    by rewrite last_snoc. }
  split; [exact Hlookup|].
  intros Hnone. rewrite Hlookup. unfold row_label. by rewrite Hnone.
Qed.

Lemma last_row_wins_witness :
  let row1 : gmap string (option string) :=
    {[ "filename" := Some "clip1.mp3"; "gender" := Some "male" ]} in
  let row2 : gmap string (option string) :=
    {[ "filename" := Some " clip2.mp3"; "gender" := Some "Female " ]} in
  let after := drop 2 Demo.meta_rows in
  csv_DictReader (Collab := Demo.world) META_CSV
  = Ok ([row1] ++ row2 :: after)
  ∧ row_key (H := Demo.world) row2 = Some "clip2.mp3"
  ∧ (∀ later, later ∈ after →
       row_key (H := Demo.world) later ≠ Some "clip2.mp3")
  ∧ Demo.truth !! "clip2.mp3" = Some "female".
Proof.
  intros row1 row2 after.
  assert (∀ later, later ∈ after →
            row_key (H := Demo.world) later ≠ Some "clip2.mp3") as Hlater.
  { intros later Hin. unfold after in Hin. simpl in Hin.
    rewrite !elem_of_cons, elem_of_nil in Hin.
    by destruct Hin as [->|[->|[]]]. }
  split; [reflexivity|]. split; [reflexivity|]. split; [exact Hlater|].
  exact (proj1 (last_row_wins (H := Demo.world) META_CSV [row1] after row2
                  Demo.truth "clip2.mp3" eq_refl demo_truth eq_refl Hlater)).
Defined.

(** X5. A file with no row of its name in the metadata table gets the
    ground-truth label [unknown]; its record is never correct, and it is
    counted incorrect exactly when a gender was predicted for it. *)
Theorem file_without_row_is_unknown `{!Collab}
    (rows : list (gmap string (option string)))
    (table : gmap string string) (fname : string) :
  csv_DictReader META_CSV = Ok rows →
  load_ground_truth META_CSV = Ok table →
  (∀ row, row ∈ rows → row_key row ≠ Some fname) →
  let r := process_file (fname, table) in
  Row.ground_truth r = "unknown"
  ∧ Row.correct r = false
  ∧ Row.incorrect r = str_in (Row.predicted r) ["male"; "female"].
Proof.
  intros Hreader Hload Hnone. cbv zeta.
  unfold load_ground_truth in Hload. rewrite Hreader in Hload.
  simpl in Hload.
  assert (table !! fname = None) as Habsent.
  { apply eq_None_not_Some. rewrite (load_rows_keys rows table fname Hload).
    intros (row & Hin & Hk).
    by apply (Hnone row Hin). }
  destruct (process_file_fields fname table)
    as (_ & _ & _ & Hgt & Hc & Hi & _).
  rewrite Habsent in Hgt. cbn [default from_option] in Hgt.
  rewrite Hc, Hi, Hgt.
  destruct (String.eqb_spec (Row.predicted (process_file (fname, table)))
              "unknown") as [->|_]; [done|].
  split; [done|]. split; [done|]. by rewrite andb_true_r.
Qed.

Lemma file_without_row_is_unknown_witness :
  csv_DictReader (Collab := Demo.world) META_CSV = Ok Demo.meta_rows
  ∧ load_ground_truth (H := Demo.world) META_CSV = Ok Demo.truth
  ∧ (∀ row, row ∈ Demo.meta_rows →
       row_key (H := Demo.world) row ≠ Some "clip7.mp3")
  ∧ Row.ground_truth (process_file (H := Demo.world)
                        ("clip7.mp3", Demo.truth)) = "unknown".
Proof.
  assert (∀ row, row ∈ Demo.meta_rows →
            row_key (H := Demo.world) row ≠ Some "clip7.mp3") as Hnone.
  { intros row Hin. unfold Demo.meta_rows in Hin.
    rewrite !elem_of_cons, elem_of_nil in Hin.
    by destruct Hin as [->|[->|[->|[->|[]]]]]. }
  split; [reflexivity|]. split; [exact demo_truth|]. split; [exact Hnone|].
  exact (proj1 (file_without_row_is_unknown (H := Demo.world) Demo.meta_rows
                  Demo.truth "clip7.mp3" eq_refl demo_truth Hnone)).
Defined.

(** ** The selection of files *)

Lemma substring_all (s : string) : String.substring 0 (String.length s) s = s.
Proof. induction s as [|c s IH]; simpl; [done | by rewrite IH]. Qed.

Lemma substring_app_r (p s : string) :
  String.substring (String.length p) (String.length s) (p +:+ s) = s.
Proof. induction p as [|c p IH]; simpl; [apply substring_all | exact IH]. Qed.

Lemma length_string_app (p s : string) :
  String.length (p +:+ s) = String.length p + String.length s.
Proof. induction p as [|c p IH]; simpl; [done | by rewrite IH]. Qed.

Lemma substring_split (m : nat) (s : string) :
  (m ≤ String.length s)%nat →
  s = String.substring 0 m s +:+ String.substring m (String.length s - m) s.
Proof.
  revert m. induction s as [|c s IH]; intros [|m] Hm; simpl in *;
    try lia; try done.
  - by rewrite substring_all.
  - change (String c s
            = String c (String.substring 0 m s
                        +:+ String.substring m (String.length s - m) s)).
    f_equal. apply IH. lia.
Qed.

(** [endswith] holds of the strings that end with the suffix. *)
Lemma endswith_spec (s suffix : string) :
  endswith s suffix = true ↔ ∃ stem, s = stem +:+ suffix.
Proof.
  unfold endswith. rewrite andb_true_iff, Nat.leb_le, String.eqb_eq. split.
  - intros [Hle Hsub].
    exists (String.substring 0 (String.length s - String.length suffix) s).
    pose proof (substring_split (String.length s - String.length suffix) s)
      as Hsplit.
    replace (String.length s - (String.length s - String.length suffix))
      with (String.length suffix) in Hsplit by lia.
    rewrite Hsub in Hsplit. apply Hsplit. lia.
  - intros [stem ->]. rewrite length_string_app. split; [lia|].
    replace (String.length stem + String.length suffix - String.length suffix)
      with (String.length stem) by lia.
    apply substring_app_r.
Qed.

(** X6. With [--all] the files taken are the names of the listing that end
    with [.mp3], every one of them and nothing else. *)
Theorem selected_iff_listed_mp3 (listing : list string) (fname : string) :
  fname ∈ select_files true listing
  ↔ fname ∈ listing ∧ ∃ stem, fname = stem +:+ ".mp3".
Proof.
  rewrite select_files_candidates, candidates_perm, list_elem_of_filter.
  rewrite endswith_spec. tauto.
Qed.

(** X7. Without [--all] the files taken are the first ones of the full
    selection, ten of them or all when there are fewer, and every file taken
    sorts before or equal to every candidate left out. *)
Theorem default_selection_is_least (listing : list string) :
  select_files false listing = take 10 (select_files true listing)
  ∧ length (select_files false listing)
    = 10 `min` length (select_files true listing)
  ∧ ∀ taken left_out,
      taken ∈ select_files false listing →
      left_out ∈ drop 10 (select_files true listing) →
      String.le taken left_out.
Proof.
  rewrite !select_files_candidates.
  split; [done|]. split; [by rewrite length_take|].
  intros taken left_out Htaken Hleft.
  pose proof (candidates_sorted listing) as Hsorted.
  apply (Sorted_StronglySorted String.le) in Hsorted.
  rewrite <- (take_drop 10 (candidates listing)) in Hsorted.
  by apply (StronglySorted_app_1_elem_of _ _ _ _ _ Hsorted).
Qed.

Lemma default_selection_is_least_witness :
  "clip7.mp3" ∈ select_files false Demo.listing
  ∧ "clip8.mp3" ∈ drop 10 (select_files true Demo.listing)
  ∧ String.le "clip7.mp3" "clip8.mp3".
Proof.
  assert ("clip7.mp3" ∈ select_files false Demo.listing) as Htaken.
  { rewrite demo_first_ten. by repeat constructor. }
  assert ("clip8.mp3" ∈ drop 10 (select_files true Demo.listing)) as Hleft.
  { vm_compute. by repeat constructor. }
  split; [exact Htaken|]. split; [exact Hleft|].
  exact (proj2 (proj2 (default_selection_is_least Demo.listing))
           "clip7.mp3" "clip8.mp3" Htaken Hleft).
Defined.

(** X8. When the listing names no file twice, no file is taken twice and
    the run returns exactly one record per file taken, under any number of
    threads. *)
Theorem one_record_per_file `{!Collab}
    (as_completed : list Row.t → list Row.t) (workers : Z)
    (ground_truth : gmap string string) (all : bool)
    (listing : list string) :
  fair as_completed →
  NoDup listing →
  let files := select_files all listing in
  let st := classify_all as_completed workers ground_truth files in
  NoDup files
  ∧ NoDup (Row.file <$> Tally.results st)
  ∧ ∀ fname, fname ∈ files →
      ∃ r, filter (λ r, Row.file r = fname) (Tally.results st) = [r]
           ∧ r = process_file (fname, ground_truth).
Proof.
  intros Hfair Hnodup files st.
  assert (NoDup files) as Hfiles.
  { unfold files. rewrite select_files_candidates.
    assert (NoDup (candidates listing)) as Hc
      by (rewrite candidates_perm; by apply NoDup_filter).
    destruct all; [done|].
    eapply sublist_NoDup; [done | apply sublist_take]. }
  destruct (classify_all_tally as_completed workers ground_truth files Hfair)
    as (Hres & _).
  fold st in Hres.
  assert (Row.file <$> Tally.results st ≡ₚ files) as Hperm
    by (rewrite Hres; by apply arrival_files).
  split; [done|]. split; [by rewrite Hperm|].
  intros fname Hin.
  assert (∀ l : list string, NoDup l → fname ∈ l →
            filter (λ r, Row.file r = fname)
              ((λ f, process_file (f, ground_truth)) <$> l)
            = [process_file (fname, ground_truth)]) as Hone.
  { induction l as [|f l IH]; intros Hl Hf; [by apply elem_of_nil in Hf|].
    apply NoDup_cons in Hl as [Hnot Hl]. rewrite fmap_cons, filter_cons.
    destruct (process_file_fields f ground_truth) as (Hfile & _).
    rewrite Hfile.
    destruct (decide (f = fname)) as [->|Hne].
    - f_equal. apply filter_none. intros r Hr Heq.
      apply list_elem_of_fmap in Hr as (f' & -> & Hf').
      destruct (process_file_fields f' ground_truth) as (Hfile' & _).
      rewrite Hfile' in Heq. congruence.
    - apply IH; [done|]. apply elem_of_cons in Hf as [->|]; done. }
  exists (process_file (fname, ground_truth)). split; [|done].
  assert (filter (λ r, Row.file r = fname) (Tally.results st)
          ≡ₚ [process_file (fname, ground_truth)]) as Hsingle.
  { rewrite Hres, (arrival_perm _ _ _ _ Hfair). by rewrite Hone. }
  by apply Permutation_singleton_r in Hsingle.
Qed.

Lemma one_record_per_file_witness :
  fair Demo.last_first
  ∧ NoDup Demo.listing
  ∧ NoDup (Row.file <$> Tally.results
             (classify_all (H := Demo.world) Demo.last_first 4 Demo.truth
                (select_files false Demo.listing))).
Proof.
  assert (NoDup Demo.listing) as Hnodup.
  { apply (bool_decide_unpack _). by vm_compute. }
  split; [exact last_first_fair|]. split; [exact Hnodup|].
  exact (proj1 (proj2 (one_record_per_file (H := Demo.world) Demo.last_first 4
                         Demo.truth false Demo.listing last_first_fair
                         Hnodup))).
Defined.

(** X9. A name that does not start with a slash is read from
    [data/audio/] followed by the name, so two such names are never read
    from the same path. *)
Theorem audio_path_of_name (fname fname' : string) :
  String.prefix "/" fname = false →
  String.prefix "/" fname' = false →
  os_path_join AUDIO_DIR fname = "data/audio/" +:+ fname
  ∧ (os_path_join AUDIO_DIR fname = os_path_join AUDIO_DIR fname' →
     fname = fname').
Proof.
  intros Hrel Hrel'.
  assert (∀ f, String.prefix "/" f = false →
               os_path_join AUDIO_DIR f = "data/audio/" +:+ f) as Hpath.
  { intros f Hf. unfold os_path_join. by rewrite Hf. }
  split; [by apply Hpath|].
  rewrite !Hpath by done. apply String.app_inj.
Qed.

Lemma audio_path_of_name_witness :
  String.prefix "/" "clip1.mp3" = false
  ∧ String.prefix "/" "clip2.mp3" = false
  ∧ os_path_join AUDIO_DIR "clip1.mp3" = "data/audio/clip1.mp3".
Proof.
  split; [reflexivity|]. split; [reflexivity|].
  exact (proj1 (audio_path_of_name "clip1.mp3" "clip2.mp3" eq_refl eq_refl)).
Defined.

(** ** The results table *)

Lemma predicted_labels `{!Collab} (fname : string)
    (ground_truth : gmap string string) :
  Row.predicted (process_file (fname, ground_truth))
  ∈ ["male"; "female"; "unclassified"; "error"].
Proof.
  destruct (process_file_fields fname ground_truth) as (_ & -> & _).
  unfold classify_gender, classify_gender_try.
  destruct (librosa_load _) as [[audio fs]|e]; simpl; [|set_solver].
  destruct (librosa_pyin _ _ _ _) as [f0|e]; simpl; [|set_solver].
  destruct (length (voiced f0) =? 0)%nat; simpl; [set_solver|].
  unfold gender_rule.
  repeat (case_match; simpl); set_solver.
Qed.

(** X10. The table a run writes starts with the header and has one line
    per file taken; every line has the five cells of the header; and in
    every line after the header the second cell is one of the four labels
    and the last one is [True] or [False]. *)
Theorem results_table_shape `{!Collab}
    (as_completed : list Row.t → list Row.t) (args : Args)
    (table : gmap string string) (listing : list string) (out : Output) :
  fair as_completed →
  load_ground_truth META_CSV = Ok table →
  os_listdir AUDIO_DIR = Ok listing →
  main as_completed args = Ok out →
  ∃ lines,
    results_csv out = fieldnames :: lines
    ∧ length lines = length (select_files (all args) listing)
    ∧ Forall (λ line, length line = 5) (results_csv out)
    ∧ Forall (λ line,
        ∃ file predicted mean_freq ground_truth correct,
          line = [file; predicted; mean_freq; ground_truth; correct]
          ∧ predicted ∈ ["male"; "female"; "unclassified"; "error"]
          ∧ correct ∈ ["True"; "False"]) lines.
Proof.
  intros Hfair Hload Hlist Hmain.
  pose proof (main_cases as_completed args) as Hcases.
  rewrite Hload, Hlist in Hcases. destruct Hcases as (con & _ & Heq).
  rewrite Heq in Hmain. injection Hmain as <-. simpl.
  destruct (classify_all_tally as_completed (threads args) table
              (select_files (all args) listing) Hfair) as (-> & _).
  pose proof (arrival_perm as_completed (threads args) table
                (select_files (all args) listing) Hfair) as Hperm.
  eexists. split; [reflexivity|].
  split; [by rewrite length_fmap, Hperm, length_fmap|].
  split.
  - constructor; [done|]. apply Forall_fmap, Forall_forall. by intros r _.
  - apply Forall_fmap. rewrite Hperm. apply Forall_fmap, Forall_forall.
    intros fname _. simpl. eexists _, _, _, _, _. split; [reflexivity|].
    split; [apply (predicted_labels fname table)|].
    destruct (Row.correct _); set_solver.
Qed.

Lemma results_table_shape_witness :
  fair Demo.last_first
  ∧ load_ground_truth (H := Demo.world) META_CSV = Ok Demo.truth
  ∧ os_listdir (Collab := Demo.world) AUDIO_DIR = Ok Demo.listing
  ∧ ∃ out, Demo.run false 4 = Ok out
           ∧ Forall (λ line, length line = 5) (results_csv out).
Proof.
  split; [exact last_first_fair|]. split; [exact demo_truth|].
  split; [reflexivity|].
  destruct (Demo.run false 4) as [out|e] eqn:Hrun; [|by vm_compute in Hrun].
  exists out. split; [reflexivity|].
  destruct (results_table_shape (H := Demo.world) Demo.last_first
              {| all := false; threads := 4 |} Demo.truth Demo.listing out
              last_first_fair demo_truth eq_refl Hrun)
    as (lines & _ & _ & Hwidth & _).
  exact Hwidth.
Defined.

(** X11. A run with one thread writes its lines in ascending order of the
    file name: the first cells, after the header, are the files taken in
    their sorted order. *)
Theorem sequential_table_is_sorted `{!Collab}
    (as_completed : list Row.t → list Row.t) (args : Args)
    (table : gmap string string) (listing : list string) (out : Output) :
  (threads args ≤ 1)%Z →
  load_ground_truth META_CSV = Ok table →
  os_listdir AUDIO_DIR = Ok listing →
  main as_completed args = Ok out →
  let names := (λ line, default "" (head line)) <$> tail (results_csv out) in
  names = select_files (all args) listing
  ∧ Sorted String.le names.
Proof.
  intros Hseq Hload Hlist Hmain names.
  pose proof (main_cases as_completed args) as Hcases.
  rewrite Hload, Hlist in Hcases. destruct Hcases as (con & _ & Heq).
  rewrite Heq in Hmain. injection Hmain as <-.
  assert (names = select_files (all args) listing) as Hnames.
  { unfold names. simpl. rewrite classify_all_arrival.
    rewrite arrival_sequential by done.
    destruct (foldl_collect _
                (fmap_process_file_well_formed table
                   (select_files (all args) listing)) tally_init)
      as (-> & _).
    simpl. rewrite <- !list_fmap_compose.
    rewrite <- (list_fmap_id (select_files (all args) listing)) at 2.
    apply list_fmap_ext. intros _ fname _. simpl.
    apply (process_file_fields fname table). }
  split; [exact Hnames|]. rewrite Hnames, select_files_candidates.
  pose proof (candidates_sorted listing) as Hsorted.
  destruct (all args); [done|].
  apply (Sorted_StronglySorted String.le) in Hsorted.
  rewrite <- (take_drop 10 (candidates listing)) in Hsorted.
  apply StronglySorted_app_1_l in Hsorted.
  by apply StronglySorted_Sorted.
Qed.

Lemma sequential_table_is_sorted_witness :
  (1 ≤ 1)%Z
  ∧ load_ground_truth (H := Demo.world) META_CSV = Ok Demo.truth
  ∧ os_listdir (Collab := Demo.world) AUDIO_DIR = Ok Demo.listing
  ∧ ∃ out, Demo.run false 1 = Ok out
           ∧ (λ line, default "" (head line)) <$> tail (results_csv out)
             = select_files false Demo.listing.
Proof.
  assert (1 ≤ 1)%Z as H1 by lia.
  split; [exact H1|]. split; [exact demo_truth|]. split; [reflexivity|].
  destruct (Demo.run false 1) as [out|e] eqn:Hrun; [|by vm_compute in Hrun].
  exists out. split; [reflexivity|].
  exact (proj1 (sequential_table_is_sorted (H := Demo.world) Demo.last_first
                  {| all := false; threads := 1 |} Demo.truth Demo.listing
                  out H1 demo_truth eq_refl Hrun)).
Defined.

(** X12. The five cells written for a record determine the whole record:
    two records of [process_file] that give the same line are equal, the
    flags [incorrect] and [unclassified], which are not written, included. *)
Theorem table_line_determines_record `{!Collab}
    (args args' : string * gmap string string) :
  csv_row (process_file args) = csv_row (process_file args') →
  process_file args = process_file args'.
Proof.
  destruct args as [fname gt], args' as [fname' gt'].
  destruct (process_file_fields fname gt)
    as (_ & _ & _ & _ & Hc & Hi & Hu).
  destruct (process_file_fields fname' gt')
    as (_ & _ & _ & _ & Hc' & Hi' & Hu').
  destruct (process_file (fname, gt)) as [f p m g c u i].
  destruct (process_file (fname', gt')) as [f' p' m' g' c' u' i'].
  unfold csv_row. simpl in *. intros [= -> -> -> -> Hcorrect].
  assert (c = c') as -> by (by destruct c, c').
  congruence.
Qed.

Lemma table_line_determines_record_witness :
  let a := ("clip1.mp3", Demo.truth) in
  let b := ("clip1.mp3", <[ "clip9.mp3" := "male" ]> Demo.truth) in
  csv_row (process_file (H := Demo.world) a)
  = csv_row (process_file (H := Demo.world) b)
  ∧ process_file (H := Demo.world) a = process_file (H := Demo.world) b.
Proof.
  intros a b.
  assert (csv_row (process_file (H := Demo.world) a)
          = csv_row (process_file (H := Demo.world) b)) as Hline
    by (by vm_compute).
  split; [exact Hline|].
  exact (table_line_determines_record (H := Demo.world) a b Hline).
Defined.

(** ** The statistics *)

(** X13. The statistics block of a run: its second line gives as total the
    number of files taken, it ends with the line naming the results file,
    and it has six lines when no file was taken and nine, the three rates
    included, otherwise. *)
Theorem statistics_block_lines `{!Collab}
    (as_completed : list Row.t → list Row.t) (args : Args)
    (table : gmap string string) (listing : list string) (out : Output) :
  fair as_completed →
  load_ground_truth META_CSV = Ok table →
  os_listdir AUDIO_DIR = Ok listing →
  main as_completed args = Ok out →
  let n := length (select_files (all args) listing) in
  console out !! 1%nat = Some ("Total files: " +:+ pretty n)
  ∧ last (console out) = Some "Results written to results.csv"
  ∧ length (console out) = if decide (n = 0) then 6 else 9.
Proof.
  intros Hfair Hload Hlist Hmain n.
  pose proof (main_cases as_completed args) as Hcases.
  rewrite Hload, Hlist in Hcases. destruct Hcases as (con & Hcon & Heq).
  rewrite Heq in Hmain. injection Hmain as <-. simpl.
  destruct (classify_all_tally as_completed (threads args) table
              (select_files (all args) listing) Hfair) as (_ & Htot & _).
  rewrite (arrival_perm _ _ _ _ Hfair), length_fmap in Htot. fold n in Htot.
  unfold print_statistics in Hcon. rewrite Htot in Hcon.
  destruct (decide (n = 0)) as [Hz|Hnz].
  - rewrite Hz in Hcon. simpl in Hcon. injection Hcon as <-.
    by rewrite Hz.
  - destruct (Nat.ltb_spec 0 n) as [_|?]; [|lia].
    rewrite !truediv_ok in Hcon by done. simpl in Hcon.
    injection Hcon as <-. done.
Qed.

Lemma statistics_block_lines_witness :
  fair Demo.last_first
  ∧ load_ground_truth (H := Demo.world) META_CSV = Ok Demo.truth
  ∧ os_listdir (Collab := Demo.world) AUDIO_DIR = Ok Demo.listing
  ∧ ∃ out, Demo.run false 4 = Ok out ∧ length (console out) = 9.
Proof.
  split; [exact last_first_fair|]. split; [exact demo_truth|].
  split; [reflexivity|].
  destruct (Demo.run false 4) as [out|e] eqn:Hrun; [|by vm_compute in Hrun].
  exists out. split; [reflexivity|].
  exact (proj2 (proj2
    (statistics_block_lines (H := Demo.world) Demo.last_first
       {| all := false; threads := 4 |} Demo.truth Demo.listing out
       last_first_fair demo_truth eq_refl Hrun))).
Defined.




(** ** The outcome of [main] *)



(** ** Labels, frequencies and flags *)

(** X16. What [classify_gender] returns is consistent: the label [error]
    never carries a frequency, a missing frequency means [unclassified] or
    [error], and the labels [male] and [female] always carry the frequency
    the pitch rule gave them for. *)
Theorem label_matches_frequency `{!Collab} (audio_path : string) :
  let res := classify_gender audio_path in
  (res.1 = "error" → res.2 = None)
  ∧ (res.2 = None → res.1 ∈ ["unclassified"; "error"])
  ∧ (res.1 ∈ ["male"; "female"] →
     ∃ f, res.2 = Some f ∧ gender_rule f = res.1)
  ∧ (∀ f, res.2 = Some f → res.1 = gender_rule f).
Proof.
  assert (∀ f, gender_rule f ≠ "error") as Hrule.
  { intros f. unfold gender_rule. repeat case_match; done. }
  assert (∀ l : string, l ∈ ["male"; "female"] → l ≠ "error"
                        ∧ l ≠ "unclassified") as Hgender.
  { intros l. rewrite !elem_of_cons, elem_of_nil.
    by intros [->|[->|[]]]. }
  assert ("unclassified" ∈ ["unclassified"; "error"]
          ∧ "error" ∈ ["unclassified"; "error"]) as [Hu He]
    by (split; by repeat constructor).
  unfold classify_gender, classify_gender_try. cbv zeta.
  destruct (librosa_load audio_path) as [[audio fs]|e]; simpl.
  2: { split; [done|]. split; [done|].
       split; [by intros [? _]%Hgender | done]. }
  destruct (librosa_pyin audio 50 300 fs) as [f0|e]; simpl.
  2: { split; [done|]. split; [done|].
       split; [by intros [? _]%Hgender | done]. }
  destruct (length (voiced f0) =? 0)%nat; simpl.
  - split; [done|]. split; [done|].
    split; [by intros [_ ?]%Hgender | done].
  - split; [by intros ?%Hrule|]. split; [done|].
    split; [by eauto|]. by intros f [= <-].
Qed.

Lemma label_matches_frequency_witness :
  (classify_gender (H := Demo.world) "data/audio/clip3.mp3").1
  ∈ ["male"; "female"]
  ∧ ∃ f, (classify_gender (H := Demo.world) "data/audio/clip3.mp3").2
         = Some f
         ∧ gender_rule f = "female".
Proof.
  assert ((classify_gender (H := Demo.world) "data/audio/clip3.mp3").1
          ∈ ["male"; "female"]) as Hin.
  { vm_compute. by repeat constructor. }
  split; [exact Hin|].
  destruct (label_matches_frequency (H := Demo.world) "data/audio/clip3.mp3")
    as (_ & _ & Hgender & _).
  destruct (Hgender Hin) as (f & Hf & Hrule).
  exists f. split; [exact Hf|]. rewrite Hrule. by vm_compute.
Defined.

(** X17. A record is correct exactly when the predicted label equals the
    ground-truth label and that label is [male] or [female]; so a file
    whose ground truth is any other label is never correct, and counts as
    incorrect exactly when a gender was predicted for it. *)
Theorem correct_needs_gendered_truth `{!Collab}
    (fname : string) (ground_truth : gmap string string) :
  let r := process_file (fname, ground_truth) in
  (Row.correct r = true
   ↔ Row.predicted r = Row.ground_truth r
     ∧ Row.ground_truth r ∈ ["male"; "female"])
  ∧ (Row.ground_truth r ∉ ["male"; "female"] →
     Row.correct r = false
     ∧ Row.incorrect r = str_in (Row.predicted r) ["male"; "female"]).
Proof.
  cbv zeta.
  destruct (process_file_fields fname ground_truth)
    as (_ & _ & _ & _ & Hc & Hi & _).
  rewrite Hc, Hi.
  generalize (Row.predicted (process_file (fname, ground_truth))).
  generalize (Row.ground_truth (process_file (fname, ground_truth))).
  intros g p.
  assert (∀ s, str_in s ["male"; "female"] = true ↔ s ∈ ["male"; "female"])
    as Hin.
  { intros s. unfold str_in. simpl.
    rewrite !orb_true_iff, !String.eqb_eq, !elem_of_cons, elem_of_nil.
    intuition congruence. }
  split.
  - rewrite andb_true_iff, String.eqb_eq, Hin. split.
    + by intros [-> ?].
    + by intros [-> ?].
  - intros Hg. destruct (String.eqb_spec p g) as [->|Hne]; simpl.
    + rewrite <- Hin in Hg. unfold str_in in Hg. simpl in Hg.
      destruct (_ || _); [by destruct Hg | done].
    + by rewrite andb_true_r.
Qed.

Lemma correct_needs_gendered_truth_witness :
  let r := process_file (H := Demo.world)
             ("clip5.mp3", <[ "clip5.mp3" := "other" ]> Demo.truth) in
  (Row.ground_truth r ∉ ["male"; "female"]) ∧ Row.correct r = false.
Proof.
  intros r.
  assert (Row.ground_truth r ∉ ["male"; "female"]) as Hg.
  { assert (Row.ground_truth r = "other") as -> by (by vm_compute).
    rewrite !elem_of_cons, elem_of_nil. by intros [?|[?|[]]]. }
  split; [exact Hg|].
  exact (proj1 (proj2 (correct_needs_gendered_truth (H := Demo.world)
                         "clip5.mp3" (<[ "clip5.mp3" := "other" ]> Demo.truth))
                 Hg)).
Defined.

(** X18. The collection loop counts every row it is given in the total, and
    in at most one of the three buckets, whatever flags the row carries:
    a row with several flags set goes to [correct] first, then to
    [unclassified], then to [incorrect], and a row with none goes to no
    bucket. *)
Theorem collect_counts_each_row_once (rows : list Row.t) :
  let st := foldl collect tally_init rows in
  Tally.results st = rows
  ∧ Tally.total st = length rows
  ∧ Tally.correct st = count_flag Row.correct rows
  ∧ Tally.unclassified st
    = count_flag (λ r, negb (Row.correct r) && Row.unclassified r) rows
  ∧ Tally.incorrect st
    = count_flag (λ r, negb (Row.correct r) && negb (Row.unclassified r)
                       && Row.incorrect r) rows
  ∧ Tally.correct st + Tally.incorrect st + Tally.unclassified st
    = count_flag (λ r, Row.correct r || Row.unclassified r || Row.incorrect r)
        rows
  ∧ (Tally.correct st + Tally.incorrect st + Tally.unclassified st
     ≤ Tally.total st)%nat.
Proof.
  assert (∀ st0,
    let st := foldl collect st0 rows in
    Tally.results st = Tally.results st0 ++ rows
    ∧ Tally.total st = Tally.total st0 + length rows
    ∧ Tally.correct st = Tally.correct st0 + count_flag Row.correct rows
    ∧ Tally.unclassified st
      = Tally.unclassified st0
        + count_flag (λ r, negb (Row.correct r) && Row.unclassified r) rows
    ∧ Tally.incorrect st
      = Tally.incorrect st0
        + count_flag (λ r, negb (Row.correct r) && negb (Row.unclassified r)
                           && Row.incorrect r) rows) as Hgen.
  { induction rows as [|r rows IH]; intros st0; simpl.
    - rewrite app_nil_r. unfold count_flag. simpl. repeat split; lia.
    - specialize (IH (collect st0 r)). simpl in IH.
      destruct IH as (-> & -> & -> & -> & ->).
      rewrite !count_flag_cons. unfold collect.
      destruct (Row.correct r), (Row.unclassified r), (Row.incorrect r);
        simpl; rewrite <- app_assoc; simpl; repeat split;
        try reflexivity; lia. }
  destruct (Hgen tally_init) as (Hr & Ht & Hc & Hu & Hi). cbv zeta.
  rewrite Hr, Ht, Hc, Hu, Hi. simpl.
  assert (count_flag Row.correct rows
          + count_flag (λ r, negb (Row.correct r) && negb (Row.unclassified r)
                             && Row.incorrect r) rows
          + count_flag (λ r, negb (Row.correct r) && Row.unclassified r) rows
          = count_flag (λ r, Row.correct r || Row.unclassified r
                             || Row.incorrect r) rows
          ∧ (count_flag (λ r, Row.correct r || Row.unclassified r
                              || Row.incorrect r) rows ≤ length rows)%nat)
    as [Hsum Hle].
  { clear. induction rows as [|r rows [IH1 IH2]].
    - by unfold count_flag.
    - rewrite !count_flag_cons. simpl.
      destruct (Row.correct r), (Row.unclassified r), (Row.incorrect r);
        simpl; lia. }
  repeat split; try done. lia.
Qed.

(** ** Runs *)

(** X19. Every record a run returns is the record of its own file: the
    file is one of those taken, the record is what [process_file] returns
    for that file, and its ground-truth label is the table's label for the
    file, [unknown] when the table has none; under any number of threads. *)
Theorem records_belong_to_their_files `{!Collab}
    (as_completed : list Row.t → list Row.t) (workers : Z)
    (ground_truth : gmap string string) (audio_files : list string)
    (r : Row.t) :
  fair as_completed →
  r ∈ Tally.results
        (classify_all as_completed workers ground_truth audio_files) →
  Row.file r ∈ audio_files
  ∧ r = process_file (Row.file r, ground_truth)
  ∧ Row.ground_truth r = default "unknown" (ground_truth !! Row.file r).
Proof.
  intros Hfair Hin.
  destruct (classify_all_tally as_completed workers ground_truth audio_files
              Hfair) as (Hres & _).
  rewrite Hres, (arrival_perm _ _ _ _ Hfair) in Hin.
  apply list_elem_of_fmap in Hin as (fname & -> & Hfname).
  destruct (process_file_fields fname ground_truth)
    as (Hfile & _ & _ & Hgt & _).
  rewrite Hfile. by rewrite Hgt.
Qed.

Lemma records_belong_to_their_files_witness :
  let r := process_file (H := Demo.world) ("clip2.mp3", Demo.truth) in
  fair Demo.last_first
  ∧ r ∈ Tally.results
          (classify_all (H := Demo.world) Demo.last_first 4 Demo.truth
             Demo.first_ten)
  ∧ Row.ground_truth r = default "unknown" (Demo.truth !! Row.file r).
Proof.
  intros r.
  assert (r ∈ Tally.results
                (classify_all (H := Demo.world) Demo.last_first 4 Demo.truth
                   Demo.first_ten)) as Hin.
  { apply (list_elem_of_lookup_2 _ 5). by vm_compute. }
  split; [exact last_first_fair|]. split; [exact Hin|].
  exact (proj2 (proj2 (records_belong_to_their_files (H := Demo.world)
                         Demo.last_first 4 Demo.truth Demo.first_ten r
                         last_first_fair Hin))).
Defined.

(** X20. The default run agrees with the full run: with one thread its
    records are the first ten records of the run with [--all], in the same
    order, and under any number of threads each of its records is a record
    of the run with [--all]. *)
Theorem default_run_is_part_of_full_run `{!Collab}
    (sched sched' : list Row.t → list Row.t) (workers workers' : Z)
    (ground_truth : gmap string string) (listing : list string) :
  fair sched → fair sched' →
  let partial :=
    Tally.results (classify_all sched workers ground_truth
                     (select_files false listing)) in
  let full :=
    Tally.results (classify_all sched' workers' ground_truth
                     (select_files true listing)) in
  (∀ r, r ∈ partial → r ∈ full)
  ∧ ((workers ≤ 1)%Z → (workers' ≤ 1)%Z → partial = take 10 full).
Proof.
  intros Hfair Hfair' partial full.
  destruct (classify_all_tally sched workers ground_truth
              (select_files false listing) Hfair) as (Hp & _).
  destruct (classify_all_tally sched' workers' ground_truth
              (select_files true listing) Hfair') as (Hf & _).
  fold partial in Hp. fold full in Hf.
  rewrite Hp, Hf. rewrite !select_files_candidates. split.
  - intros r.
    rewrite (arrival_perm _ _ _ _ Hfair), (arrival_perm _ _ _ _ Hfair').
    rewrite !list_elem_of_fmap. intros (fname & -> & Hin).
    exists fname. split; [done|].
    eapply elem_of_sublist; [exact Hin | apply sublist_take].
  - intros Hw Hw'. rewrite !arrival_sequential by done.
    by rewrite fmap_take.
Qed.

Lemma default_run_is_part_of_full_run_witness :
  fair Demo.last_first
  ∧ (1 ≤ 1)%Z
  ∧ Tally.results (classify_all (H := Demo.world) Demo.last_first 1
                     Demo.truth (select_files false Demo.listing))
    = take 10 (Tally.results
                 (classify_all (H := Demo.world) Demo.last_first 1
                    Demo.truth (select_files true Demo.listing))).
Proof.
  assert (1 ≤ 1)%Z as H1 by lia.
  split; [exact last_first_fair|]. split; [exact H1|].
  exact (proj2 (default_run_is_part_of_full_run (H := Demo.world)
                  Demo.last_first Demo.last_first 1 1 Demo.truth
                  Demo.listing last_first_fair last_first_fair) H1 H1).
Defined.
